(** * Counting semaphores of the kernel: [os_sem.c]

    A shallow embedding of [os_sem_create], [os_sem_release], [os_sem_pend]
    and [os_sem_delete] over an explicit kernel state: the task descriptors
    and the semaphores live in two stores indexed by address, the wait queue
    is the intrusive singly linked list threaded through the [t_sem_list]
    field of the descriptors, and the calls into the scheduler are recorded
    in the order they are made. *)

From stdpp Require Import base option list gmap.
From Stdlib Require Import ZArith Lia.

Local Open Scope Z_scope.

(** ** Data model *)

(** The three values of [os_error_t] that [os_sem.c] returns. *)
Inductive os_error_t : Set :=
  | OS_OK
  | OS_INVALID_PARM
  | OS_TIMEOUT.

#[global] Instance os_error_t_eq_dec : EqDecision os_error_t.
Proof. solve_decision. Defined.

(** A pointer to a task or to a semaphore is [Some] address, [NULL] is
    [None].  The fields of [struct os_task] that [os_sem.c] reads or
    writes.  The structure is declared in a header that is not part of the
    sources, so the widths of [t_prio] and [t_flags] are not known: both are
    held as integers, on which [|=], [&= ~] and [<] are [Z.lor],
    [Z.land _ (Z.lnot _)] and [<?], as they are in C on values and a mask
    that fit the field. *)
Record os_task : Set := OsTask {
  t_prio : Z;
  t_flags : Z;
  t_sem_list : option nat   (* SLIST_ENTRY(os_task) t_sem_list: the next waiter *)
}.

(** [struct os_sem]: the head of the list of waiters and the tokens.  The
    structure is declared in a header that is not part of the sources; the
    counter has the type of the [tokens] argument of [os_sem_create],
    [uint16_t]. *)
Record os_sem : Set := OsSem {
  sem_head : option nat;    (* SLIST_HEAD(, os_task) sem_head *)
  sem_tokens : Z
}.

(** The calls [os_sem.c] makes into the scheduler that ask for something. *)
Inductive sched_call : Set :=
  | CallWakeup (t : nat)    (* os_sched_wakeup(t, 0, 0) *)
  | CallSched (t : nat).    (* os_sched(t, 0) *)

#[global] Instance sched_call_eq_dec : EqDecision sched_call.
Proof. solve_decision. Defined.

Record os_state : Type := OsState {
  os_tasks : gmap nat os_task;
  os_sems : gmap nat os_sem;
  g_current_task : nat;          (* what os_sched_get_current_task() returns *)
  g_os_run_list : list nat;      (* the tasks that have been made ready *)
  os_sched_calls : list sched_call
}.

Definition to_uint16 (z : Z) : Z := z mod 65536.

(** ** A state and fault monad

    A computation reads and writes the kernel state; it faults ([None]) when
    it dereferences an address that holds no object, or when a loop is cut
    off by its fuel. *)

Definition M (A : Type) : Type := os_state → option (A * os_state).

Definition ret {A} (a : A) : M A := λ os, Some (a, os).

Definition bind {A B} (m : M A) (k : A → M B) : M B :=
  λ os, match m os with
        | Some (a, os') => k a os'
        | None => None
        end.

Definition fault {A} : M A := λ _, None.

Declare Scope os_scope.
Delimit Scope os_scope with os.
Notation "'do' x <- m ; k" := (bind m (λ x, k))
  (at level 10, x name, m at level 100, k at level 200) : os_scope.
Local Open Scope os_scope.

Definition with_tasks (f : gmap nat os_task → gmap nat os_task) (os : os_state) : os_state :=
  OsState (f (os_tasks os)) (os_sems os) (g_current_task os)
          (g_os_run_list os) (os_sched_calls os).

Definition with_sems (f : gmap nat os_sem → gmap nat os_sem) (os : os_state) : os_state :=
  OsState (os_tasks os) (f (os_sems os)) (g_current_task os)
          (g_os_run_list os) (os_sched_calls os).

Definition load_task (t : nat) : M os_task :=
  λ os, match os_tasks os !! t with
        | Some tk => Some (tk, os)
        | None => None
        end.

Definition store_task (t : nat) (tk : os_task) : M unit :=
  λ os, Some (tt, with_tasks (<[t := tk]>) os).

Definition load_sem (s : nat) : M os_sem :=
  λ os, match os_sems os !! s with
        | Some sm => Some (sm, os)
        | None => None
        end.

Definition store_sem (s : nat) (sm : os_sem) : M unit :=
  λ os, Some (tt, with_sems (<[s := sm]>) os).

(** Field reads and writes, [p->field] and [p->field = v]. *)
Definition get_t_prio (t : nat) : M Z := do tk <- load_task t ; ret (t_prio tk).
Definition get_t_flags (t : nat) : M Z := do tk <- load_task t ; ret (t_flags tk).
Definition get_t_sem_list (t : nat) : M (option nat) :=
  do tk <- load_task t ; ret (t_sem_list tk).

Definition set_t_flags (t : nat) (v : Z) : M unit :=
  do tk <- load_task t ; store_task t (OsTask (t_prio tk) v (t_sem_list tk)).
Definition set_t_sem_list (t : nat) (v : option nat) : M unit :=
  do tk <- load_task t ; store_task t (OsTask (t_prio tk) (t_flags tk) v).

Definition get_sem_tokens (s : nat) : M Z := do sm <- load_sem s ; ret (sem_tokens sm).
Definition set_sem_tokens (s : nat) (v : Z) : M unit :=
  do sm <- load_sem s ; store_sem s (OsSem (sem_head sm) v).

(** The macros of [sys/queue.h] that [os_sem.c] uses, on the list whose
    head is [sem->sem_head] and whose links are [t_sem_list]. *)
Definition SLIST_FIRST (s : nat) : M (option nat) :=
  do sm <- load_sem s ; ret (sem_head sm).

Definition SLIST_SET_FIRST (s : nat) (v : option nat) : M unit :=
  do sm <- load_sem s ; store_sem s (OsSem v (sem_tokens sm)).

Definition SLIST_EMPTY (s : nat) : M bool :=
  do h <- SLIST_FIRST s ; ret (bool_decide (h = None)).

(* (head)->slh_first = (head)->slh_first->field.sle_next *)
Definition SLIST_REMOVE_HEAD (s : nat) : M unit :=
  do h <- SLIST_FIRST s ;
  match h with
  | Some first => do nxt <- get_t_sem_list first ; SLIST_SET_FIRST s nxt
  | None => fault
  end.

(* (elm)->field.sle_next = (head)->slh_first; (head)->slh_first = (elm) *)
Definition SLIST_INSERT_HEAD (s : nat) (elm : nat) : M unit :=
  do h <- SLIST_FIRST s ;
  do _ <- set_t_sem_list elm h ;
  SLIST_SET_FIRST s (Some elm).

(* (elm)->field.sle_next = (slistelm)->field.sle_next;
   (slistelm)->field.sle_next = (elm) *)
Definition SLIST_INSERT_AFTER (slistelm : nat) (elm : nat) : M unit :=
  do nxt <- get_t_sem_list slistelm ;
  do _ <- set_t_sem_list elm nxt ;
  set_t_sem_list slistelm (Some elm).

(** ** The scheduler, as far as [os_sem.c] relies on it *)

(** Modelled from the spec: [os_sched_get_current_task], defined in the
    scheduler, which is not part of the sources.  "current_task(): returns
    the task presently executing; never fails." *)
Definition os_sched_get_current_task : M nat :=
  λ os, Some (g_current_task os, os).

(** Modelled from the spec: [os_sched_wakeup], defined in the scheduler.
    "wake(task, arg0, arg1): marks a task ready; does not itself switch
    context."  The task joins the ready tasks and the request is recorded;
    no field of the descriptor that [os_sem.c] uses is touched (the comment
    in [os_sem_release], "should os_sched_wakeup clear this flag?", says
    that the wait flag is not). *)
Definition os_sched_wakeup (t : nat) : M unit :=
  λ os, Some (tt, OsState (os_tasks os) (os_sems os) (g_current_task os)
                          (g_os_run_list os ++ [t])
                          (os_sched_calls os ++ [CallWakeup t])).

(** Modelled from the spec: [os_sched], defined in the scheduler.
    "request_reschedule(hint): informs the scheduler a higher-priority task
    may now be runnable."  The request is recorded. *)
Definition os_sched (t : nat) : M unit :=
  λ os, Some (tt, OsState (os_tasks os) (os_sems os) (g_current_task os)
                          (g_os_run_list os)
                          (os_sched_calls os ++ [CallSched t])).

(** Modelled from the spec: the choice [os_sched_next_task] makes among the
    ready tasks [l], [best] being the best one so far: a task replaces
    [best] when its priority value is strictly smaller. *)
Fixpoint os_sched_best_of (best : nat) (l : list nat) : M nat :=
  match l with
  | [] => ret best
  | t :: l' =>
      do tp <- get_t_prio t ;
      do bp <- get_t_prio best ;
      os_sched_best_of (if tp <? bp then t else best) l'
  end.

(** Modelled from the spec: [os_sched_next_task], defined in the scheduler.
    "next_ready_task(arg): used only by delete, to determine whether eviction
    created a higher-priority runnable task than the caller": the ready task
    of the best (numerically smallest) priority when it outranks the running
    task, the running task otherwise; among equals the earliest. *)
Definition os_sched_next_task : M nat :=
  do current <- os_sched_get_current_task ;
  λ os, os_sched_best_of current (g_os_run_list os) os.

Section OsSem.

(** [OS_TASK_FLAG_SEM_WAIT] is defined in a header that is not part of the
    sources: the mask is a parameter of the development. *)
Variable OS_TASK_FLAG_SEM_WAIT : Z.

(** ** os_sem_create *)

Definition os_sem_create (sem : option nat) (tokens : Z) : M os_error_t :=
  match sem with
  | None => ret OS_INVALID_PARM
  | Some s =>
      (* sem->sem_tokens = tokens; SLIST_FIRST(&sem->sem_head) = NULL; *)
      do _ <- store_sem s (OsSem None tokens) ;
      ret OS_OK
  end.

(** ** os_sem_release *)

Definition os_sem_release (sem : option nat) : M os_error_t :=
  match sem with
  | None => ret OS_INVALID_PARM
  | Some s =>
      do current <- os_sched_get_current_task ;
      do rdy <- SLIST_FIRST s ;
      match rdy with
      | Some r =>
          do fl <- get_t_flags r ;
          do _ <- set_t_flags r (Z.land fl (Z.lnot OS_TASK_FLAG_SEM_WAIT)) ;
          do _ <- SLIST_REMOVE_HEAD s ;
          do _ <- set_t_sem_list r None ;
          do _ <- os_sched_wakeup r ;
          do cp <- get_t_prio current ;
          do rp <- get_t_prio r ;
          let resched := rp <? cp in
          (* OS_EXIT_CRITICAL *)
          do _ <- (if resched then os_sched r else ret tt) ;
          ret OS_OK
      | None =>
          do n <- get_sem_tokens s ;
          do _ <- set_sem_tokens s (to_uint16 (n + 1)) ;
          ret OS_OK
      end
  end.

(** ** os_sem_pend *)

(** What the first critical section of [os_sem_pend] leaves in [rc] and
    [sched]: either a result to return at once ([sched == 0]), or the order
    to put the caller to sleep ([sched == 1], [rc] not yet assigned). *)
Inductive pend_outcome : Set :=
  | PendReturn (rc : os_error_t)
  | PendSleep.

(** The body of [SLIST_FOREACH(entry, &sem->sem_head, t_sem_list)]: walk
    from [entry], remember in [last] the entries passed, stop at the first
    one whose priority value is above the caller's.  The list is in memory
    and may be cyclic, so the walk carries fuel. *)
Fixpoint os_sem_pend_scan (fuel : nat) (current : nat) (entry last : option nat)
  {struct fuel} : M (option nat) :=
  match entry with
  | None => ret last
  | Some e =>
      match fuel with
      | O => fault
      | S fuel' =>
          do cp <- get_t_prio current ;
          do ep <- get_t_prio e ;
          if cp <? ep then ret last
          else
            do nxt <- get_t_sem_list e ;
            os_sem_pend_scan fuel' current nxt (Some e)
      end
  end.

(** From [OS_ENTER_CRITICAL] to [OS_EXIT_CRITICAL] in [os_sem_pend]. *)
Definition os_sem_pend_critical (fuel : nat) (s : nat) (current : nat) (timeout : Z)
  : M pend_outcome :=
  do n <- get_sem_tokens s ;
  if negb (n =? 0) then
    do _ <- set_sem_tokens s (to_uint16 (n - 1)) ;
    ret (PendReturn OS_OK)
  else if timeout =? 0 then
    ret (PendReturn OS_TIMEOUT)
  else
    do fl <- get_t_flags current ;
    do _ <- set_t_flags current (Z.lor fl OS_TASK_FLAG_SEM_WAIT) ;
    do empty <- SLIST_EMPTY s ;
    do last <- (if negb empty
                then do first <- SLIST_FIRST s ;
                     os_sem_pend_scan fuel current first None
                else ret None) ;
    do _ <- (match last with
        | Some l => SLIST_INSERT_AFTER l current
        | None => SLIST_INSERT_HEAD s current
        end) ;
    ret PendSleep.

(** After [os_sched_sleep] has returned: "Check if we timed out or got the
    semaphore". *)
Definition os_sem_pend_wakeup (current : nat) : M os_error_t :=
  do fl <- get_t_flags current ;
  if negb (Z.land fl OS_TASK_FLAG_SEM_WAIT =? 0) then
    do fl' <- get_t_flags current ;
    do _ <- set_t_flags current (Z.land fl' (Z.lnot OS_TASK_FLAG_SEM_WAIT)) ;
    ret OS_TIMEOUT
  else
    ret OS_OK.

(** [os_sched_sleep(current, timeout)] suspends the caller: whatever the
    other tasks, the interrupt handlers and the timer do to the kernel state
    until the caller runs again is a parameter of [os_sem_pend]. *)
Variable os_sched_sleep : nat → Z → M unit.

Definition os_sem_pend (fuel : nat) (sem : option nat) (timeout : Z) : M os_error_t :=
  match sem with
  | None => ret OS_INVALID_PARM
  | Some s =>
      do current <- os_sched_get_current_task ;
      do out <- os_sem_pend_critical fuel s current timeout ;
      match out with
      | PendReturn rc => ret rc
      | PendSleep =>
          do _ <- os_sched_sleep current timeout ;
          os_sem_pend_wakeup current
      end
  end.

(** The scheduler makes [t] the running task. *)
Definition os_sched_switch_to (t : nat) : M unit :=
  λ os, Some (tt, OsState (os_tasks os) (os_sems os) t
                          (g_os_run_list os) (os_sched_calls os)).

(** [os_sem_pend] on a semaphore that exists, up to its return or to its
    [os_sched_sleep]. *)
Definition os_sem_pend_enter (fuel : nat) (s : nat) (timeout : Z) : M pend_outcome :=
  do current <- os_sched_get_current_task ;
  os_sem_pend_critical fuel s current timeout.

(** Tasks that call [os_sem_pend] one after the other, the scheduler
    switching to each in turn: every call runs up to its [os_sched_sleep]
    (or to its return, when it does not sleep). *)
Fixpoint pend_each (fuel : nat) (s : nat) (callers : list (nat * Z))
  : M (list pend_outcome) :=
  match callers with
  | [] => ret []
  | (t, timeout) :: rest =>
      do _ <- os_sched_switch_to t ;
      do out <- os_sem_pend_enter fuel s timeout ;
      do outs <- pend_each fuel s rest ;
      ret (out :: outs)
  end.

(** [n] calls of [os_sem_release] by the running task. *)
Fixpoint release_times (n : nat) (s : nat) : M unit :=
  match n with
  | O => ret tt
  | S n' => do _ <- os_sem_release (Some s) ; release_times n' s
  end.

(** The order of service: the tasks of [callers] go to sleep in
    [os_sem_pend], then [releaser] releases the semaphore once for each of
    them; the result is the list of the tasks made ready, in order. *)
Definition service_order (fuel : nat) (s : nat) (callers : list (nat * Z))
    (releaser : nat) : M (list nat) :=
  do _ <- pend_each fuel s callers ;
  do _ <- os_sched_switch_to releaser ;
  do _ <- release_times (length callers) s ;
  λ os, Some (g_os_run_list os, os).

(** ** Sequences of calls

    A call of [os_sem_pend] by task [t], or a call of [os_sem_release] by
    task [t]. *)
Inductive sem_call : Set :=
  | Pend (t : nat) (timeout : Z)
  | Release (t : nat).

(** One call, the scheduler having switched to the caller.  The result
    counts the calls of [os_sem_release] made and the calls of
    [os_sem_pend] that have returned [OS_OK].  A caller of [os_sem_pend]
    that has to wait stays in [os_sched_sleep]; no timeout expires, so it
    runs again when a call of [os_sem_release] has woken it, and its
    [os_sem_pend] then finishes. *)
Definition sem_step (fuel : nat) (s : nat) (c : sem_call) : M (Z * Z) :=
  match c with
  | Pend t timeout =>
      do _ <- os_sched_switch_to t ;
      do out <- os_sem_pend_enter fuel s timeout ;
      match out with
      | PendReturn OS_OK => ret (0, 1)
      | PendReturn _ => ret (0, 0)
      | PendSleep => ret (0, 0)
      end
  | Release t =>
      do _ <- os_sched_switch_to t ;
      do waiter <- SLIST_FIRST s ;
      do _ <- os_sem_release (Some s) ;
      match waiter with
      | None => ret (1, 0)
      | Some w =>
          do rc <- os_sem_pend_wakeup w ;
          ret (1, if decide (rc = OS_OK) then 1 else 0)
      end
  end.

Fixpoint sem_run (fuel : nat) (s : nat) (cs : list sem_call) : M (Z * Z) :=
  match cs with
  | [] => ret (0, 0)
  | c :: cs' =>
      do n <- sem_step fuel s c ;
      do m <- sem_run fuel s cs' ;
      ret (n.1 + m.1, n.2 + m.2)
  end.

(** The number of calls of [os_sem_release] in [cs]. *)
Fixpoint releases (cs : list sem_call) : Z :=
  match cs with
  | [] => 0
  | Release _ :: cs' => 1 + releases cs'
  | Pend _ _ :: cs' => releases cs'
  end.

(** [os_sem_create] and then the calls of [cs]. *)
Definition sem_session (fuel : nat) (s : nat) (tokens : Z) (cs : list sem_call)
  : M (Z * Z) :=
  do _ <- os_sem_create (Some s) tokens ;
  sem_run fuel s cs.

(** ** os_sem_delete *)

(** The loop [while (!SLIST_EMPTY(&sem->sem_head))] of [os_sem_delete]. *)
Fixpoint os_sem_delete_loop (fuel : nat) (s : nat) {struct fuel} : M unit :=
  do empty <- SLIST_EMPTY s ;
  if negb empty then
    match fuel with
    | O => fault
    | S fuel' =>
        do rdy <- SLIST_FIRST s ;
        match rdy with
        | Some r =>
            do _ <- SLIST_REMOVE_HEAD s ;
            do _ <- set_t_sem_list r None ;
            do _ <- os_sched_wakeup r ;
            os_sem_delete_loop fuel' s
        | None => fault
        end
    end
  else ret tt.

Definition os_sem_delete (fuel : nat) (sem : option nat) : M os_error_t :=
  match sem with
  | None => ret OS_INVALID_PARM
  | Some s =>
      do current <- os_sched_get_current_task ;
      do _ <- set_sem_tokens s 0 ;
      do _ <- os_sem_delete_loop fuel s ;
      do rdy <- os_sched_next_task ;
      do _ <- (if negb (rdy =? current)%nat then os_sched rdy else ret tt) ;
      ret OS_OK
  end.

End OsSem.

(** ** The wait queue as a list

    [is_queue ts p l]: following the [t_sem_list] links from [p] in the store
    [ts] visits exactly the tasks of [l], in this order, each once, and ends
    at [NULL]. *)
Fixpoint is_queue (ts : gmap nat os_task) (p : option nat) (l : list nat) : Prop :=
  match l with
  | [] => p = None
  | a :: l' =>
      p = Some a ∧ (a ∉ l') ∧
      ∃ tk, ts !! a = Some tk ∧ is_queue ts (t_sem_list tk) l'
  end.

(** [wait_queue os s l]: the semaphore at [s] exists and its waiters, from
    the head, are [l]. *)
Definition wait_queue (os : os_state) (s : nat) (l : list nat) : Prop :=
  ∃ sm, os_sems os !! s = Some sm ∧ is_queue (os_tasks os) (sem_head sm) l.

Definition token_count (os : os_state) (s : nat) : Z :=
  from_option sem_tokens 0 (os_sems os !! s).

Definition task_prio (os : os_state) (t : nat) : Z :=
  from_option t_prio 0 (os_tasks os !! t).

Definition task_flags (os : os_state) (t : nat) : Z :=
  from_option t_flags 0 (os_tasks os !! t).

Definition task_link (os : os_state) (t : nat) : option nat :=
  from_option t_sem_list None (os_tasks os !! t).


(** ** The wait queue as the spec words it *)

(** Where the walk of [os_sem_pend_scan] ends on a list held as [l]: the last
    entry passed before the first one whose priority value is above [cp]. *)
Fixpoint scan_last (prio : nat → Z) (cp : Z) (l : list nat) (last : option nat)
  : option nat :=
  match l with
  | [] => last
  | e :: l' => if cp <? prio e then last else scan_last prio cp l' (Some e)
  end.

(** The spec's insertion: "scan from head; insert before the first entry
    whose priority is strictly lower/worse than the caller's [...]; append
    after the last entry of equal-or-better priority otherwise". *)
Fixpoint prio_insert (prio : nat → Z) (c : nat) (l : list nat) : list nat :=
  match l with
  | [] => [c]
  | e :: l' => if prio c <? prio e then c :: e :: l' else e :: prio_insert prio c l'
  end.

(** Ascending priority values along a list of tasks. *)
Fixpoint prio_sorted (prio : nat → Z) (l : list nat) : Prop :=
  match l with
  | [] => True
  | a :: l' => Forall (λ b, prio a ≤ prio b) l' ∧ prio_sorted prio l'
  end.

(** The queue after the tasks of [cs] have been inserted one after the
    other, in this order. *)
Definition prio_insert_all (prio : nat → Z) (l cs : list nat) : list nat :=
  foldl (λ q t, prio_insert prio t q) l cs.

(** The descriptors after [SLIST_NEXT(rdy, t_sem_list) = NULL] on every
    task of [l]. *)
Definition unlink (tk : os_task) : os_task := OsTask (t_prio tk) (t_flags tk) None.

Definition unlink_all (l : list nat) (ts : gmap nat os_task) : gmap nat os_task :=
  foldl (λ m t, alter unlink t m) ts l.

(** What [os_sched_best_of] computes, on priorities given as a function. *)
Fixpoint best_of (prio : nat → Z) (best : nat) (l : list nat) : nat :=
  match l with
  | [] => best
  | t :: l' => best_of prio (if prio t <? prio best then t else best) l'
  end.

(** Modelled from the spec: [os_sched_sleep], defined in the scheduler,
    when its time is up and nothing else has run.  "sleep(task, timeout):
    suspends the given (calling) task; returns only after wake-up or
    timeout"; "a pending wait is cancelled purely by tick-driven expiry
    handled by the external scheduler; the semaphore's only duty is to
    correctly interpret the wait flag on resume": the scheduler does not
    touch the semaphore or its list. *)
Definition os_sched_sleep_expire (t : nat) (timeout : Z) : M unit := ret tt.

(** A sleep during which task [other] runs the call [call] and nothing else
    happens; the scheduler then gives the processor back to the sleeper. *)
Definition os_sched_sleep_while (other : nat) (call : M os_error_t)
    (t : nat) (timeout : Z) : M unit :=
  do _ <- os_sched_switch_to other ;
  do _ <- call ;
  os_sched_switch_to t.

(** ** A small kernel for the examples

    Tasks 1, 2, 3 and 4 have the priorities 5, 1, 3 and 3; task 9, of
    priority 7, is running; the semaphore at address 0 has no token and no
    waiter. *)
Definition demo_tasks : gmap nat os_task :=
  {[ 1%nat := OsTask 5 0 None; 2%nat := OsTask 1 0 None;
     3%nat := OsTask 3 0 None; 4%nat := OsTask 3 0 None;
     9%nat := OsTask 7 0 None ]}.

Definition demo_os : os_state :=
  OsState demo_tasks {[ 0%nat := OsSem None 0 ]} 9%nat [] [].

(** ** Invariant and frame *)

(** "whenever [token_count > 0], [wait_queue] is empty". *)
Definition sem_inv (os : os_state) (s : nat) : Prop :=
  0 < token_count os s → wait_queue os s [].

(** Between [os] and [os'] no task descriptor appears or disappears, and
    the descriptors at every address [t] are related by [R t]. *)
Definition tasks_related (R : nat → os_task → os_task → Prop) (os os' : os_state)
  : Prop :=
  ∀ t,
    match os_tasks os !! t, os_tasks os' !! t with
    | Some a, Some b => R t a b
    | None, None => True
    | _, _ => False
    end.

(** No priority changes, and no bit of [t_flags] outside [mask] changes. *)
Definition tasks_frame (mask : Z) (os os' : os_state) : Prop :=
  tasks_related
    (λ _ a b,
       t_prio b = t_prio a ∧
       ∀ i, Z.testbit mask i = false →
            Z.testbit (t_flags b) i = Z.testbit (t_flags a) i)
    os os'.

(** The counter holds a value of its type, [uint16_t]. *)
Definition tokens_ok (os : os_state) (s : nat) : Prop :=
  0 ≤ token_count os s < 65536.

(** The same kernel after tasks 1, 2 and 3 have gone to sleep in
    [os_sem_pend], in this order, with [OS_TASK_FLAG_SEM_WAIT = 2]: the list
    is 2, 3, 1 and the three tasks carry the flag. *)
Definition demo_waiting : os_state :=
  OsState
    {[ 1%nat := OsTask 5 2 None; 2%nat := OsTask 1 2 (Some 3%nat);
       3%nat := OsTask 3 2 (Some 1%nat); 4%nat := OsTask 3 0 None;
       9%nat := OsTask 7 0 None ]}
    {[ 0%nat := OsSem (Some 2%nat) 0 ]} 9%nat [] [].

(** The same kernel with one token, and with as many tokens as the counter
    can hold. *)
Definition demo_token : os_state :=
  OsState demo_tasks {[ 0%nat := OsSem None 1 ]} 9%nat [] [].

Definition demo_full : os_state :=
  OsState demo_tasks {[ 0%nat := OsSem None 65535 ]} 9%nat [] [].

(** ** Further notions for the behaviour of [os_sem.c]

    A waiter carries the wait flag: every bit of the mask is set. *)
Definition waiter_flagged (mask : Z) (os : os_state) (t : nat) : Prop :=
  Z.land (task_flags os t) mask = mask.

(** The state of a semaphore between calls: its waiters form a list without
    repetition, in ascending order of priority value, each with its wait
    flag set; the counter is in range and positive only without waiters. *)
Definition sem_wf (mask : Z) (os : os_state) (s : nat) (l : list nat) : Prop :=
  wait_queue os s l ∧
  prio_sorted (task_prio os) l ∧
  Forall (waiter_flagged mask os) l ∧
  tokens_ok os s ∧
  sem_inv os s.

(** Every pointer of the store leads to an object: the head of the list of
    the semaphore at [s] and the link of every task descriptor is [NULL] or
    the address of a task descriptor.  Nothing is said about the shape of
    the list: it may run into a cycle. *)
Definition store_closed (os : os_state) (s : nat) : Prop :=
  (∃ sm, os_sems os !! s = Some sm ∧
         ∀ h, sem_head sm = Some h → is_Some (os_tasks os !! h)) ∧
  ∀ t tk n, os_tasks os !! t = Some tk → t_sem_list tk = Some n →
            is_Some (os_tasks os !! n).

(** The number of task descriptors whose link is not [NULL]. *)
Definition linked (os : os_state) : nat :=
  size (filter (λ kv : nat * os_task, t_sem_list kv.2 ≠ None) (os_tasks os)).

(** ** Two more kernels for the examples

    [demo_waiting] with a second semaphore, at address 1, on which task 4
    waits. *)
Definition demo_two : os_state :=
  OsState
    {[ 1%nat := OsTask 5 2 None; 2%nat := OsTask 1 2 (Some 3%nat);
       3%nat := OsTask 3 2 (Some 1%nat); 4%nat := OsTask 3 2 None;
       9%nat := OsTask 7 0 None ]}
    {[ 0%nat := OsSem (Some 2%nat) 0; 1%nat := OsSem (Some 4%nat) 0 ]}
    9%nat [] [].

(** [demo_waiting] after task 2, still at the head of the list, has pended
    once more: its link points to itself. *)
Definition demo_cyclic : os_state :=
  OsState
    {[ 1%nat := OsTask 5 2 None; 2%nat := OsTask 1 2 (Some 2%nat);
       3%nat := OsTask 3 2 (Some 1%nat); 4%nat := OsTask 3 0 None;
       9%nat := OsTask 7 0 None ]}
    {[ 0%nat := OsSem (Some 2%nat) 0 ]} 9%nat [] [].
(** ** Running the monadic code *)

Ltac munfold :=
  unfold os_sem_release, os_sem_create, os_sem_pend, os_sem_pend_critical,
    os_sem_pend_wakeup, os_sem_delete, os_sem_pend_enter, os_sched_switch_to,
    os_sched_sleep_expire, os_sched_sleep_while,
    SLIST_INSERT_AFTER, SLIST_INSERT_HEAD, SLIST_REMOVE_HEAD, SLIST_EMPTY,
    SLIST_SET_FIRST, SLIST_FIRST,
    get_t_flags, set_t_flags, get_t_prio, get_t_sem_list, set_t_sem_list,
    get_sem_tokens, set_sem_tokens, load_sem, load_task, store_task, store_sem,
    os_sched_next_task, os_sched_wakeup, os_sched, os_sched_get_current_task,
    bind, ret, fault, with_tasks, with_sems.

Ltac mlookup :=
  simpl;
  repeat (first
    [ rewrite lookup_insert_eq
    | rewrite lookup_insert_ne by done
    | match goal with
      | H : ?m !! ?k = _ |- context [?m !! ?k] => rewrite H
      | H : sem_head ?sm = _ |- context [sem_head ?sm] => rewrite H
      | H : sem_tokens ?sm = _ |- context [sem_tokens ?sm] => rewrite H
      end ]; simpl).

(** ** Facts about the list in memory *)

Lemma is_queue_alloc ts p l t :
  is_queue ts p l → t ∈ l → is_Some (ts !! t).
Proof.
  revert p. induction l as [|a l IH]; intros p Hq Hin.
  - by apply elem_of_nil in Hin.
  - destruct Hq as (-> & Hni & tk & Hl & Hq).
    apply elem_of_cons in Hin as [->|Hin]; eauto.
Qed.

Lemma is_queue_NoDup ts p l : is_queue ts p l → NoDup l.
Proof.
  revert p. induction l as [|a l IH]; intros p Hq; [constructor|].
  destruct Hq as (-> & Hni & tk & Hl & Hq). constructor; eauto.
Qed.

Lemma is_queue_inj ts p l1 l2 :
  is_queue ts p l1 → is_queue ts p l2 → l1 = l2.
Proof.
  revert p l2. induction l1 as [|a l1 IH]; intros p [|b l2] H1 H2; simpl in *.
  - done.
  - destruct H2 as (? & _); congruence.
  - destruct H1 as (? & _); congruence.
  - destruct H1 as (-> & _ & tk1 & Hl1 & H1), H2 as ([= <-] & _ & tk2 & Hl2 & H2).
    simplify_eq. f_equal. eauto.
Qed.

(** Writing a descriptor that is not on the list leaves the list alone. *)
Lemma is_queue_store ts p l t tk :
  t ∉ l → is_queue ts p l → is_queue (<[t := tk]> ts) p l.
Proof.
  revert p. induction l as [|a l IH]; intros p Hni Hq; [done|].
  destruct Hq as (-> & Hni' & tk' & Hl & Hq).
  apply not_elem_of_cons in Hni as [Hne Hni].
  simpl. split_and!; [done..|]. exists tk'.
  rewrite lookup_insert_ne by done. eauto.
Qed.

(** [SLIST_INSERT_HEAD]. *)
Lemma is_queue_insert_head ts p l c ctk :
  c ∉ l → is_queue ts p l →
  is_queue (<[c := OsTask (t_prio ctk) (t_flags ctk) p]> ts) (Some c) (c :: l).
Proof.
  intros Hni Hq. simpl. split_and!; [done..|].
  eexists. rewrite lookup_insert_eq. split; [done|]. simpl.
  by apply is_queue_store.
Qed.

(** [SLIST_INSERT_AFTER]. *)
Lemma is_queue_insert_after ts p l1 e l2 c ctk etk :
  c ∉ l1 ++ e :: l2 →
  ts !! e = Some etk →
  is_queue ts p (l1 ++ e :: l2) →
  is_queue
    (<[e := OsTask (t_prio etk) (t_flags etk) (Some c)]>
       (<[c := OsTask (t_prio ctk) (t_flags ctk) (t_sem_list etk)]> ts))
    p (l1 ++ e :: c :: l2).
Proof.
  revert p. induction l1 as [|a l1 IH]; intros p Hni He Hq; simpl in *.
  - destruct Hq as (-> & Hni' & tk & Hl & Hq). simplify_eq.
    apply not_elem_of_cons in Hni as [Hne Hni].
    split_and!; [done| |].
    { apply not_elem_of_cons. split; [congruence|done]. }
    eexists. rewrite lookup_insert_eq. split; [done|]. simpl.
    split_and!; [done..|].
    eexists. rewrite lookup_insert_ne by congruence. rewrite lookup_insert_eq.
    split; [done|]. simpl. by do 2 (apply is_queue_store; [done|]).
  - destruct Hq as (-> & Hni' & tk & Hl & Hq).
    apply not_elem_of_cons in Hni as [Hne Hni].
    assert (a ≠ e) by (intros ->; apply Hni'; set_solver).
    split_and!; [done| |].
    { rewrite elem_of_app, !elem_of_cons in *. intros [?|[?|[?|?]]]; subst; tauto. }
    exists tk. rewrite !lookup_insert_ne by congruence. split; [done|].
    by apply IH.
Qed.

(** ** os_sem_create *)

Lemma os_sem_create_run s tokens os :
  os_sem_create (Some s) tokens os =
    Some (OS_OK, with_sems (<[s := OsSem None tokens]>) os).
Proof. done. Qed.

(** C8: [os_sem_create] returns [OS_INVALID_PARM] exactly when the semaphore
    pointer is [NULL], and then changes nothing; otherwise it returns [OS_OK],
    the semaphore holds the given number of tokens and an empty wait queue,
    and the tasks, the other semaphores and the scheduler are as before. *)
Theorem os_sem_create_spec (sem : option nat) (tokens : Z) (os : os_state) :
  ∃ rc os',
    os_sem_create sem tokens os = Some (rc, os') ∧
    (rc = OS_INVALID_PARM ↔ sem = None) ∧
    match sem with
    | None => os' = os
    | Some s =>
        rc = OS_OK ∧
        token_count os' s = tokens ∧
        wait_queue os' s [] ∧
        os_tasks os' = os_tasks os ∧
        (∀ s', s' ≠ s → os_sems os' !! s' = os_sems os !! s') ∧
        g_current_task os' = g_current_task os ∧
        g_os_run_list os' = g_os_run_list os ∧
        os_sched_calls os' = os_sched_calls os
    end.
Proof.
  destruct sem as [s|]; simpl.
  - eexists _, _. split; [apply os_sem_create_run|]. split; [done|].
    unfold token_count, wait_queue. simpl.
    split_and!; try done.
    + by rewrite lookup_insert_eq.
    + eexists. by rewrite lookup_insert_eq.
    + intros s' Hne. by rewrite lookup_insert_ne.
  - eexists _, _. split; [reflexivity|]. done.
Qed.

(** ** os_sem_release *)

Lemma os_sem_release_null mask os :
  os_sem_release mask None os = Some (OS_INVALID_PARM, os).
Proof. done. Qed.

(** A waiter is at the head of the list: it is taken off and woken. *)
Lemma os_sem_release_wake mask os s sm r tk c :
  os_sems os !! s = Some sm → sem_head sm = Some r →
  os_tasks os !! r = Some tk →
  os_tasks os !! g_current_task os = Some c →
  os_sem_release mask (Some s) os =
    Some (OS_OK,
          OsState
            (<[r := OsTask (t_prio tk) (Z.land (t_flags tk) (Z.lnot mask)) None]>
               (os_tasks os))
            (<[s := OsSem (t_sem_list tk) (sem_tokens sm)]> (os_sems os))
            (g_current_task os)
            (g_os_run_list os ++ [r])
            (os_sched_calls os ++ CallWakeup r ::
               (if t_prio tk <? t_prio c then [CallSched r] else []))).
Proof.
  intros Hs Hh Hr Hc. munfold.
  destruct (decide (g_current_task os = r)) as [Heq|Hne].
  - rewrite Heq in *. mlookup. simplify_eq.
    destruct (_ <? _); simpl; rewrite ?insert_insert_eq, <- ?app_assoc; done.
  - mlookup.
    destruct (_ <? _); simpl; rewrite ?insert_insert_eq, <- ?app_assoc; done.
Qed.

(** Nobody waits: the token is banked. *)
Lemma os_sem_release_bank mask os s sm :
  os_sems os !! s = Some sm → sem_head sm = None →
  os_sem_release mask (Some s) os =
    Some (OS_OK,
          with_sems (<[s := OsSem None (to_uint16 (sem_tokens sm + 1))]>) os).
Proof. intros Hs Hh. munfold. mlookup. done. Qed.

(** C4, as the code has it: with a waiter at the head, [os_sem_release] takes
    exactly that task off the list, clears its wait flag, nulls its link,
    asks the scheduler to wake it, leaves the tokens as they are, and asks
    for a reschedule exactly when the woken task's priority value is
    strictly below the caller's; with no waiter it adds one token, the
    16-bit counter wrapping from 65535 to 0; it returns [OS_OK] in both
    cases. *)
Theorem os_sem_release_spec (mask : Z) (os : os_state) (s : nat) (l : list nat) :
  wait_queue os s l →
  (l ≠ [] → is_Some (os_tasks os !! g_current_task os)) →
  ∃ os',
    os_sem_release mask (Some s) os = Some (OS_OK, os') ∧
    match l with
    | r :: l' =>
        wait_queue os' s l' ∧
        task_flags os' r = Z.land (task_flags os r) (Z.lnot mask) ∧
        Z.land (task_flags os' r) mask = 0 ∧
        task_link os' r = None ∧
        (∀ t, t ≠ r → os_tasks os' !! t = os_tasks os !! t) ∧
        token_count os' s = token_count os s ∧
        g_os_run_list os' = g_os_run_list os ++ [r] ∧
        os_sched_calls os' =
          os_sched_calls os ++ CallWakeup r ::
            (if task_prio os r <? task_prio os (g_current_task os)
             then [CallSched r] else [])
    | [] =>
        wait_queue os' s [] ∧
        token_count os' s = to_uint16 (token_count os s + 1) ∧
        (0 ≤ token_count os s < 65535 → token_count os' s = token_count os s + 1) ∧
        os_tasks os' = os_tasks os ∧
        g_os_run_list os' = g_os_run_list os ∧
        os_sched_calls os' = os_sched_calls os
    end.
Proof.
  intros (sm & Hs & Hq) Hcur. destruct l as [|r l'].
  - simpl in Hq. eexists. split; [by apply os_sem_release_bank|].
    unfold wait_queue, token_count. simpl. rewrite Hs. simpl.
    split_and!; try done.
    + eexists. by rewrite lookup_insert_eq.
    + by rewrite lookup_insert_eq.
    + rewrite lookup_insert_eq. simpl. intros Hlt. unfold to_uint16.
      apply Z.mod_small. lia.
  - destruct Hq as (Hh & Hni & tk & Hr & Hq).
    destruct Hcur as [c Hc]; [done|].
    eexists. split; [by eapply os_sem_release_wake|].
    unfold wait_queue, token_count, task_flags, task_link, task_prio. simpl.
    rewrite Hs, Hr, Hc. simpl.
    split_and!; try done.
    + eexists. rewrite lookup_insert_eq. split; [done|]. simpl.
      by apply is_queue_store.
    + by rewrite lookup_insert_eq.
    + rewrite lookup_insert_eq. simpl.
      rewrite <- Z.land_assoc, (Z.land_comm (Z.lnot mask)), Z.land_lnot_diag.
      apply Z.land_0_r.
    + by rewrite lookup_insert_eq.
    + intros t Hne. by rewrite lookup_insert_ne.
    + by rewrite lookup_insert_eq.
Qed.

(** ** Priority order on lists *)

Lemma scan_last_insert prio c l last :
  (scan_last prio (prio c) l last = last ∧ prio_insert prio c l = c :: l) ∨
  (∃ e l1 l2, scan_last prio (prio c) l last = Some e ∧
              l = l1 ++ e :: l2 ∧ prio_insert prio c l = l1 ++ e :: c :: l2).
Proof.
  revert last. induction l as [|e l IH]; intros last; simpl; [by left|].
  destruct (prio c <? prio e); [by left|]. right.
  destruct (IH (Some e)) as [[-> ->]|(e' & l1 & l2 & -> & -> & ->)].
  - by exists e, [], l.
  - by exists e', (e :: l1), l2.
Qed.

Lemma prio_insert_perm prio c l : prio_insert prio c l ≡ₚ c :: l.
Proof.
  induction l as [|e l IH]; simpl; [done|].
  destruct (prio c <? prio e); [done|]. rewrite IH. apply Permutation_swap.
Qed.

Lemma prio_insert_sorted prio c l :
  prio_sorted prio l → prio_sorted prio (prio_insert prio c l).
Proof.
  induction l as [|e l IH]; simpl; [done|]. intros [Hall Hs].
  destruct (prio c <? prio e) eqn:Hlt; simpl.
  - apply Z.ltb_lt in Hlt. split_and!; [|done..].
    constructor; [lia|]. eapply Forall_impl; [done|]. simpl. intros; lia.
  - apply Z.ltb_ge in Hlt. split; [|by apply IH].
    rewrite prio_insert_perm. by constructor.
Qed.

(** The caller goes before the first entry of a strictly greater priority
    value, and behind every entry it does not precede. *)
Lemma prio_insert_split prio c l :
  ∃ l1 l2, l = l1 ++ l2 ∧ prio_insert prio c l = l1 ++ c :: l2 ∧
           Forall (λ e, prio e ≤ prio c) l1 ∧
           match l2 with [] => True | e :: _ => prio c < prio e end.
Proof.
  induction l as [|e l IH]; simpl.
  - by exists [], [].
  - destruct (prio c <? prio e) eqn:Hlt.
    + apply Z.ltb_lt in Hlt. by exists [], (e :: l).
    + apply Z.ltb_ge in Hlt. destruct IH as (l1 & l2 & -> & -> & Hall & Hl2).
      exists (e :: l1), l2. split_and!; try done. by constructor.
Qed.

Lemma filter_prio_above (prio : nat → Z) p l :
  Forall (λ b, p < prio b) l → filter (λ t, prio t = p) l = [].
Proof.
  induction 1 as [|b l Hb _ IH]; [done|].
  rewrite filter_cons. case_decide; [lia|done].
Qed.

(** Tasks of one priority keep the order in which they came. *)
Lemma prio_insert_fifo prio c l p :
  prio_sorted prio l →
  filter (λ t, prio t = p) (prio_insert prio c l) =
  filter (λ t, prio t = p) (l ++ [c]).
Proof.
  induction l as [|e l IH]; [done|]. intros [Hall Hs].
  cbn [prio_insert]. destruct (prio c <? prio e) eqn:Hlt.
  - apply Z.ltb_lt in Hlt.
    change (e :: l) with ([e] ++ l) at 2. rewrite <- app_assoc.
    rewrite (filter_cons _ c), !filter_app, (filter_cons _ c), filter_nil.
    destruct (decide (prio c = p)) as [Hc|Hc].
    + assert (Forall (λ b, p < prio b) l) as Hl.
      { eapply Forall_impl; [done|]. simpl. intros; lia. }
      assert (Forall (λ b, p < prio b) [e]) as He.
      { constructor; [lia|constructor]. }
      rewrite (filter_prio_above prio p [e]), (filter_prio_above prio p l) by done.
      rewrite (filter_prio_above prio p (e :: l)); [done|].
      constructor; [lia|done].
    + by rewrite app_nil_r, <- filter_app.
  - rewrite filter_cons, IH by done.
    change ((e :: l) ++ [c]) with (e :: (l ++ [c])). by rewrite (filter_cons _ e).
Qed.

Lemma scan_last_ext f g cp l last :
  (∀ t, f t = g t) → scan_last f cp l last = scan_last g cp l last.
Proof.
  intros E. revert last. induction l as [|e l IH]; intros last; simpl; [done|].
  by rewrite E, IH.
Qed.

Lemma prio_insert_ext f g c l :
  (∀ t, f t = g t) → prio_insert f c l = prio_insert g c l.
Proof. intros E. induction l as [|e l IH]; simpl; [done|]. by rewrite !E, IH. Qed.

Lemma prio_sorted_ext f g l :
  (∀ t, f t = g t) → prio_sorted f l → prio_sorted g l.
Proof.
  intros E. induction l as [|e l IH]; simpl; [done|]. intros [Hall Hs].
  split; [|by apply IH]. eapply Forall_impl; [done|]. simpl. intros b.
  by rewrite !E.
Qed.

(** ** os_sem_pend *)

Lemma os_sem_pend_scan_run fuel l entry last os cur ctk :
  is_queue (os_tasks os) entry l →
  os_tasks os !! cur = Some ctk →
  (length l ≤ fuel)%nat →
  os_sem_pend_scan fuel cur entry last os =
    Some (scan_last (task_prio os) (t_prio ctk) l last, os).
Proof.
  intros Hq Hc. revert l entry last Hq.
  induction fuel as [|fuel IH]; intros [|e l] entry last Hq Hlen; simpl in *;
    try lia.
  - by subst.
  - by subst.
  - destruct Hq as (-> & Hni & tk & He & Hq). simpl. munfold. mlookup.
    unfold task_prio at 1. rewrite He. simpl.
    destruct (t_prio ctk <? t_prio tk); [done|].
    mlookup. apply IH; [done|lia].
Qed.

Lemma os_sem_pend_take mask fuel os s sm cur timeout :
  os_sems os !! s = Some sm → sem_tokens sm ≠ 0 →
  os_sem_pend_critical mask fuel s cur timeout os =
    Some (PendReturn OS_OK,
          with_sems (<[s := OsSem (sem_head sm) (to_uint16 (sem_tokens sm - 1))]>) os).
Proof.
  intros Hs Hn. munfold. mlookup.
  destruct (sem_tokens sm =? 0) eqn:E; [apply Z.eqb_eq in E; done|].
  mlookup. done.
Qed.

Lemma os_sem_pend_poll mask fuel os s sm cur :
  os_sems os !! s = Some sm → sem_tokens sm = 0 →
  os_sem_pend_critical mask fuel s cur 0 os = Some (PendReturn OS_TIMEOUT, os).
Proof. intros Hs Hn. munfold. mlookup. done. Qed.

(** No token and a timeout that is not zero: the caller marks itself as
    waiting and links itself into the list, [prio_insert] says where. *)
Lemma os_sem_pend_enqueue mask fuel os s l cur timeout :
  wait_queue os s l → token_count os s = 0 → timeout ≠ 0 →
  is_Some (os_tasks os !! cur) → cur ∉ l → (length l ≤ fuel)%nat →
  ∃ os',
    os_sem_pend_critical mask fuel s cur timeout os = Some (PendSleep, os') ∧
    wait_queue os' s (prio_insert (task_prio os) cur l) ∧
    token_count os' s = 0 ∧
    (∀ s', s' ≠ s → os_sems os' !! s' = os_sems os !! s') ∧
    task_flags os' cur = Z.lor (task_flags os cur) mask ∧
    (∀ t, t ≠ cur → task_flags os' t = task_flags os t) ∧
    (∀ t, task_prio os' t = task_prio os t) ∧
    (∀ t, is_Some (os_tasks os' !! t) ↔ is_Some (os_tasks os !! t)) ∧
    g_current_task os' = g_current_task os ∧
    g_os_run_list os' = g_os_run_list os ∧
    os_sched_calls os' = os_sched_calls os.
Proof.
  intros (sm & Hs & Hq) Htok Hto [ctk Hc] Hni Hlen.
  unfold token_count in Htok. rewrite Hs in Htok. simpl in Htok.
  set (ctk1 := OsTask (t_prio ctk) (Z.lor (t_flags ctk) mask) (t_sem_list ctk)).
  set (os1 := with_tasks (<[cur := ctk1]>) os).
  assert (is_queue (os_tasks os1) (sem_head sm) l) as Hq1.
  { by apply is_queue_store. }
  assert (os_tasks os1 !! cur = Some ctk1) as Hc1.
  { apply lookup_insert_eq. }
  pose proof (os_sem_pend_scan_run fuel l (sem_head sm) None os1 cur ctk1 Hq1 Hc1 Hlen)
    as Hscan.
  assert (∀ t, task_prio os1 t = task_prio os t) as Hprio1.
  { intros t. unfold task_prio, os1. simpl.
    destruct (decide (t = cur)) as [->|Hne].
    - by rewrite lookup_insert_eq, Hc.
    - by rewrite lookup_insert_ne. }
  assert (os_sem_pend_critical mask fuel s cur timeout os =
          (do _ <- (match scan_last (task_prio os1) (t_prio ctk1) l None with
                    | Some e => SLIST_INSERT_AFTER e cur
                    | None => SLIST_INSERT_HEAD s cur
                    end) ; ret PendSleep)%os os1) as ->.
  { unfold os_sem_pend_critical.
    unfold bind at 1, get_sem_tokens, load_sem, bind, ret. rewrite Hs, Htok. simpl.
    destruct (timeout =? 0) eqn:E; [apply Z.eqb_eq in E; done|].
    unfold get_t_flags, set_t_flags, load_task, store_task, bind, ret.
    rewrite Hc. simpl. rewrite Hc. simpl. fold ctk1. fold os1.
    unfold SLIST_EMPTY, SLIST_FIRST, load_sem, bind, ret. simpl. rewrite Hs.
    destruct (sem_head sm) as [h|] eqn:Hh; simpl.
    - rewrite Hs. simpl. rewrite Hh. rewrite Hscan. done.
    - simpl in *. destruct l; [done|]. by destruct Hq. }
  assert (t_prio ctk1 = task_prio os cur) as Hcp.
  { unfold task_prio. by rewrite Hc. }
  rewrite Hcp, (scan_last_ext _ _ _ _ _ Hprio1).
  destruct (scan_last_insert (task_prio os) cur l None)
    as [[-> ->]|(e & l1 & l2 & -> & -> & ->)].
  - (* SLIST_INSERT_HEAD *)
    subst os1. munfold. mlookup. eexists. split; [reflexivity|].
    unfold wait_queue, token_count, task_flags, task_prio. simpl.
    split_and!; try done.
    + eexists. rewrite lookup_insert_eq. split; [done|].
      by apply (is_queue_insert_head _ _ _ _ ctk1).
    + by rewrite lookup_insert_eq.
    + intros s' Hne. by rewrite lookup_insert_ne.
    + by rewrite lookup_insert_eq, Hc.
    + intros t Hne. by rewrite !lookup_insert_ne.
    + intros t. destruct (decide (t = cur)) as [->|Hne].
      * by rewrite lookup_insert_eq, Hc.
      * by rewrite !lookup_insert_ne.
    + intros t. destruct (decide (t = cur)) as [->|Hne].
      * rewrite lookup_insert_eq, Hc. by split; eauto.
      * by rewrite !lookup_insert_ne.
  - (* SLIST_INSERT_AFTER *)
    assert (e ≠ cur) as Hne_e by (intros ->; apply Hni; set_solver).
    destruct (is_queue_alloc _ _ _ e Hq1) as [etk He1]; [set_solver|].
    assert (os_tasks os !! e = Some etk) as He.
    { unfold os1 in He1. simpl in He1. by rewrite lookup_insert_ne in He1. }
    subst os1. munfold. mlookup. eexists. split; [reflexivity|].
    unfold wait_queue, token_count, task_flags, task_prio. simpl.
    split_and!; try done.
    + exists sm. split; [done|].
      rewrite insert_insert_eq.
      by apply (is_queue_insert_after _ _ _ _ _ _ ctk1 etk).
    + by rewrite Hs.
    + by rewrite lookup_insert_ne, lookup_insert_eq, Hc.
    + intros t Hne. destruct (decide (t = e)) as [->|Hne'].
      * by rewrite lookup_insert_eq, He.
      * by rewrite !lookup_insert_ne.
    + intros t. destruct (decide (t = e)) as [->|Hne'].
      * by rewrite lookup_insert_eq, He.
      * rewrite (lookup_insert_ne _ e t) by done.
        destruct (decide (t = cur)) as [->|Hne].
        -- by rewrite lookup_insert_eq, Hc.
        -- by rewrite !lookup_insert_ne.
    + intros t. destruct (decide (t = e)) as [->|Hne'].
      * rewrite lookup_insert_eq, He. by split; eauto.
      * rewrite (lookup_insert_ne _ e t) by done.
        destruct (decide (t = cur)) as [->|Hne].
        -- rewrite lookup_insert_eq, Hc. by split; eauto.
        -- by rewrite !lookup_insert_ne.
Qed.

Lemma os_sem_pend_wakeup_timeout mask os cur ctk :
  os_tasks os !! cur = Some ctk → Z.land (t_flags ctk) mask ≠ 0 →
  os_sem_pend_wakeup mask cur os =
    Some (OS_TIMEOUT,
          with_tasks (<[cur := OsTask (t_prio ctk)
                                      (Z.land (t_flags ctk) (Z.lnot mask))
                                      (t_sem_list ctk)]>) os).
Proof.
  intros Hc Hf. munfold. mlookup.
  destruct (Z.land (t_flags ctk) mask =? 0) eqn:E; [apply Z.eqb_eq in E; done|].
  mlookup. done.
Qed.

Lemma os_sem_pend_wakeup_ok mask os cur ctk :
  os_tasks os !! cur = Some ctk → Z.land (t_flags ctk) mask = 0 →
  os_sem_pend_wakeup mask cur os = Some (OS_OK, os).
Proof. intros Hc Hf. munfold. mlookup. by rewrite Hf. Qed.

Lemma os_sem_pend_null mask sleep fuel timeout os :
  os_sem_pend mask sleep fuel None timeout os = Some (OS_INVALID_PARM, os).
Proof. done. Qed.

(** C6: on a semaphore that holds a token, [os_sem_pend] takes one token and
    returns [OS_OK]; on a semaphore without a token and with a timeout of 0
    it returns [OS_TIMEOUT] and changes nothing.  In both cases the result
    is the same whatever [os_sched_sleep] would do: the caller is not put to
    sleep, and the wait queue and the tasks are as before. *)
Theorem os_sem_pend_no_wait (mask : Z) (sleep : nat → Z → M unit) (fuel : nat)
    (os : os_state) (s : nat) (sm : os_sem) (timeout : Z) :
  os_sems os !! s = Some sm →
  0 ≤ sem_tokens sm < 65536 →
  (0 < sem_tokens sm →
     ∃ os', os_sem_pend mask sleep fuel (Some s) timeout os = Some (OS_OK, os') ∧
            os_sem_pend mask (λ _ _, fault) fuel (Some s) timeout os = Some (OS_OK, os') ∧
            token_count os' s = token_count os s - 1 ∧
            os_sems os' !! s = Some (OsSem (sem_head sm) (sem_tokens sm - 1)) ∧
            (∀ l, wait_queue os s l → wait_queue os' s l) ∧
            os_tasks os' = os_tasks os ∧
            g_os_run_list os' = g_os_run_list os ∧
            os_sched_calls os' = os_sched_calls os) ∧
  (sem_tokens sm = 0 →
     os_sem_pend mask sleep fuel (Some s) 0 os = Some (OS_TIMEOUT, os) ∧
     os_sem_pend mask (λ _ _, fault) fuel (Some s) 0 os = Some (OS_TIMEOUT, os)).
Proof.
  intros Hs Hrange. split.
  - intros Hpos.
    assert (∀ sl, os_sem_pend mask sl fuel (Some s) timeout os =
              Some (OS_OK, with_sems (<[s := OsSem (sem_head sm) (sem_tokens sm - 1)]>) os))
      as Hrun.
    { intros sl. unfold os_sem_pend, bind at 1, os_sched_get_current_task.
      unfold bind at 1.
      rewrite (os_sem_pend_take mask fuel os s sm _ timeout Hs) by lia.
      unfold to_uint16. rewrite Z.mod_small by lia. done. }
    eexists. split; [apply Hrun|]. split; [apply Hrun|].
    unfold token_count, wait_queue. simpl. rewrite Hs. simpl.
    split_and!; try done.
    + by rewrite lookup_insert_eq.
    + by rewrite lookup_insert_eq.
    + intros l (sm' & Hs' & Hq). simplify_eq. eexists.
      rewrite lookup_insert_eq. done.
  - intros Hz.
    assert (∀ sl, os_sem_pend mask sl fuel (Some s) 0 os = Some (OS_TIMEOUT, os))
      as Hrun.
    { intros sl. unfold os_sem_pend, bind at 1, os_sched_get_current_task.
      unfold bind at 1.
      by rewrite (os_sem_pend_poll mask fuel os s sm _ Hs Hz). }
    split; apply Hrun.
Qed.

Lemma prio_insert_all_cons prio l c cs :
  prio_insert_all prio l (c :: cs) = prio_insert_all prio (prio_insert prio c l) cs.
Proof. done. Qed.

Lemma prio_insert_all_ext f g l cs :
  (∀ t, f t = g t) → prio_insert_all f l cs = prio_insert_all g l cs.
Proof.
  intros E. revert l. induction cs as [|c cs IH]; intros l; [done|].
  by rewrite !prio_insert_all_cons, IH, (prio_insert_ext f g).
Qed.

Lemma prio_insert_all_sorted prio l cs :
  prio_sorted prio l → prio_sorted prio (prio_insert_all prio l cs).
Proof.
  revert l. induction cs as [|c cs IH]; intros l Hs; [done|].
  rewrite prio_insert_all_cons. by apply IH, prio_insert_sorted.
Qed.

Lemma prio_insert_all_perm prio l cs : prio_insert_all prio l cs ≡ₚ l ++ cs.
Proof.
  revert l. induction cs as [|c cs IH]; intros l.
  - by rewrite app_nil_r.
  - rewrite prio_insert_all_cons, IH, prio_insert_perm. simpl.
    apply Permutation_middle.
Qed.

Lemma prio_insert_all_fifo prio l cs p :
  prio_sorted prio l →
  filter (λ t, prio t = p) (prio_insert_all prio l cs) =
  filter (λ t, prio t = p) (l ++ cs).
Proof.
  revert l. induction cs as [|c cs IH]; intros l Hs.
  - by rewrite app_nil_r.
  - rewrite prio_insert_all_cons, IH by (by apply prio_insert_sorted).
    rewrite !filter_app, prio_insert_fifo, filter_app by done.
    rewrite <- app_assoc. f_equal. by rewrite <- filter_app.
Qed.

Lemma pend_each_cons mask fuel s t timeout rest os :
  pend_each mask fuel s ((t, timeout) :: rest) os =
    match os_sem_pend_critical mask fuel s t timeout
            (OsState (os_tasks os) (os_sems os) t (g_os_run_list os)
                     (os_sched_calls os)) with
    | Some (out, os1) =>
        match pend_each mask fuel s rest os1 with
        | Some (outs, os') => Some (out :: outs, os')
        | None => None
        end
    | None => None
    end.
Proof.
  simpl. unfold os_sem_pend_enter, os_sched_switch_to, os_sched_get_current_task.
  unfold bind at 1. unfold bind at 1. unfold bind at 1. simpl.
  destruct (os_sem_pend_critical _ _ _ _ _ _) as [[out os1]|]; [|done].
  unfold bind at 1. by destruct (pend_each _ _ _ _ _) as [[outs os']|].
Qed.

Lemma pend_each_run mask fuel s callers os l :
  wait_queue os s l → token_count os s = 0 →
  NoDup callers.*1 →
  Forall (λ c, (c.1 ∉ l) ∧ is_Some (os_tasks os !! c.1) ∧ c.2 ≠ 0) callers →
  (length l + length callers ≤ fuel)%nat →
  ∃ os',
    pend_each mask fuel s callers os =
      Some (replicate (length callers) PendSleep, os') ∧
    wait_queue os' s (prio_insert_all (task_prio os) l callers.*1) ∧
    token_count os' s = 0 ∧
    (∀ t, task_prio os' t = task_prio os t) ∧
    (∀ t, is_Some (os_tasks os' !! t) ↔ is_Some (os_tasks os !! t)) ∧
    g_os_run_list os' = g_os_run_list os ∧
    os_sched_calls os' = os_sched_calls os.
Proof.
  revert os l. induction callers as [|[t timeout] rest IH];
    intros os l Hq Htok Hnd Hall Hlen.
  - exists os. simpl. done.
  - simpl in Hnd, Hlen. apply NoDup_cons in Hnd as [Hnt Hnd].
    apply Forall_cons in Hall as [(Htl & Halloc & Hto) Hall].
    simpl in Htl, Halloc, Hto.
    set (osa := OsState (os_tasks os) (os_sems os) t (g_os_run_list os)
                        (os_sched_calls os)).
    destruct (os_sem_pend_enqueue mask fuel osa s l t timeout)
      as (os1 & Hrun & Hq1 & Htok1 & _ & _ & _ & Hprio1 & Hdom1 & _ & Hrl1 & Hcalls1);
      try done; [lia|].
    assert (∀ x, task_prio osa x = task_prio os x) as Hpa by done.
    rewrite (prio_insert_ext _ _ _ _ Hpa) in Hq1.
    destruct (IH os1 (prio_insert (task_prio os) t l))
      as (os' & Hrun' & Hq' & Htok' & Hprio' & Hdom' & Hrl' & Hcalls'); try done.
    + eapply Forall_impl; [apply Forall_and; split; [apply Hall|]|].
      * apply Forall_forall. intros c Hc. exact (list_elem_of_fmap_2 fst _ _ Hc).
      * simpl. intros [c to] [(Hcl & Hca & Hcto) Hin]. simpl in *.
        split_and!; [|by apply Hdom1|done].
        rewrite prio_insert_perm. apply not_elem_of_cons. split; [|done].
        intros ->. by apply Hnt.
    + rewrite (Permutation_length (prio_insert_perm _ _ _)). simpl. lia.
    + exists os'. split.
      { rewrite pend_each_cons. fold osa. by rewrite Hrun, Hrun'. }
      split_and!; try done.
      * rewrite fmap_cons, prio_insert_all_cons. simpl.
        by rewrite <- (prio_insert_all_ext _ _ _ _ Hprio1).
      * intros x. by rewrite Hprio', Hprio1.
      * intros x. by rewrite Hdom', Hdom1.
      * by rewrite Hrl', Hrl1.
      * by rewrite Hcalls', Hcalls1.
Qed.

Lemma filter_prio_ext (f g : nat → Z) p (l : list nat) :
  (∀ t, f t = g t) →
  filter (λ t, f t = p) l = filter (λ t, g t = p) l.
Proof.
  intros E. induction l as [|a l IH]; [done|].
  rewrite !filter_cons, IH. repeat case_decide; try done; rewrite E in *; done.
Qed.

(** Releasing once for every waiter wakes the waiters in the order of the
    list. *)
Lemma release_times_run mask s q os :
  wait_queue os s q → is_Some (os_tasks os !! g_current_task os) →
  ∃ os',
    release_times mask (length q) s os = Some (tt, os') ∧
    wait_queue os' s [] ∧
    g_os_run_list os' = g_os_run_list os ++ q.
Proof.
  revert os. induction q as [|r q IH]; intros os (sm & Hs & Hq) [c Hc].
  - exists os. simpl. rewrite app_nil_r. split_and!; try done. by exists sm.
  - destruct Hq as (Hh & Hni & tk & Hr & Hq).
    pose proof (os_sem_release_wake mask os s sm r tk c Hs Hh Hr Hc) as Hrun.
    match type of Hrun with _ = Some (_, ?o) => set (os1 := o) in * end.
    destruct (IH os1) as (os' & Hrun' & Hq' & Hrl').
    + eexists. simpl. rewrite lookup_insert_eq. split; [done|]. simpl.
      by apply is_queue_store.
    + simpl. rewrite lookup_insert. case_decide; [done|]. by rewrite Hc.
    + exists os'. split_and!; [|done|].
      * change (release_times mask (length (r :: q)) s os)
          with (bind (os_sem_release mask (Some s))
                     (λ _, release_times mask (length q) s) os).
        unfold bind. by rewrite Hrun.
      * rewrite Hrl'. simpl. by rewrite <- app_assoc.
Qed.

(** X10: a caller that has to wait and is not yet on the list is linked in
    before the first entry whose priority value is strictly above its own,
    behind every entry whose priority value is at most its own; so after any
    sequence of calls that have to wait, by distinct tasks none of which is
    on the list already, the list is in ascending order of priority value,
    the tasks of one priority in the order in which they called, and this
    is the order in which later calls of [os_sem_release] wake them.
    Callers of priority 5, 1, 3 are served in the order 1, 3, 5, and two
    callers of one priority in the order of their calls. *)
Theorem os_sem_pend_priority_order :
  (∀ mask fuel os s l c timeout,
     wait_queue os s l → prio_sorted (task_prio os) l →
     token_count os s = 0 → timeout ≠ 0 →
     is_Some (os_tasks os !! c) → c ∉ l → (length l ≤ fuel)%nat →
     ∃ os' l1 l2,
       os_sem_pend_critical mask fuel s c timeout os = Some (PendSleep, os') ∧
       l = l1 ++ l2 ∧
       wait_queue os' s (l1 ++ c :: l2) ∧
       Forall (λ e, task_prio os e ≤ task_prio os c) l1 ∧
       Forall (λ e, task_prio os c < task_prio os e) l2 ∧
       prio_sorted (task_prio os') (l1 ++ c :: l2)) ∧
  (∀ mask fuel os s l callers releaser,
     wait_queue os s l → prio_sorted (task_prio os) l →
     token_count os s = 0 →
     NoDup callers.*1 →
     Forall (λ c, (c.1 ∉ l) ∧ is_Some (os_tasks os !! c.1) ∧ c.2 ≠ 0) callers →
     (length l + length callers ≤ fuel)%nat →
     is_Some (os_tasks os !! releaser) →
     ∃ os' os'' q,
       pend_each mask fuel s callers os =
         Some (replicate (length callers) PendSleep, os') ∧
       wait_queue os' s q ∧
       prio_sorted (task_prio os') q ∧
       q ≡ₚ l ++ callers.*1 ∧
       (∀ p, filter (λ t, task_prio os' t = p) q =
             filter (λ t, task_prio os' t = p) (l ++ callers.*1)) ∧
       (do _ <- os_sched_switch_to releaser ;
        release_times mask (length q) s)%os os' = Some (tt, os'') ∧
       g_os_run_list os'' = g_os_run_list os ++ q) ∧
  (∀ mask,
     service_order mask 3 0 [(1%nat, 100); (2%nat, 100); (3%nat, 100)] 9 demo_os
       ≫= (λ r, Some r.1) = Some [2; 3; 1]%nat) ∧
  (∀ mask,
     service_order mask 2 0 [(3%nat, 100); (4%nat, 100)] 9 demo_os
       ≫= (λ r, Some r.1) = Some [3; 4]%nat ∧
     service_order mask 2 0 [(4%nat, 100); (3%nat, 100)] 9 demo_os
       ≫= (λ r, Some r.1) = Some [4; 3]%nat).
Proof.
  split_and!.
  - intros mask fuel os s l c timeout Hq Hsort Htok Hto Halloc Hni Hlen.
    destruct (os_sem_pend_enqueue mask fuel os s l c timeout)
      as (os' & Hrun & Hq' & _ & _ & _ & _ & Hprio & _); try done.
    destruct (prio_insert_split (task_prio os) c l) as (l1 & l2 & -> & Hins & H1 & H2).
    exists os', l1, l2. rewrite Hins in Hq'. split_and!; try done.
    + destruct l2 as [|e l2]; [constructor|].
      assert (prio_sorted (task_prio os) (e :: l2)) as [Hall _].
      { clear -Hsort. induction l1 as [|a l1 IH]; [done|]. apply IH, Hsort. }
      constructor; [done|]. eapply Forall_impl; [done|]. simpl. intros; lia.
    + rewrite <- Hins. apply (prio_sorted_ext (task_prio os)); [done|].
      by apply prio_insert_sorted.
  - intros mask fuel os s l callers releaser Hq Hsort Htok Hnd Hall Hlen Hrel.
    destruct (pend_each_run mask fuel s callers os l)
      as (os' & Hrun & Hq' & Htok' & Hprio & Hdom & Hrl & Hcalls); try done.
    set (q := prio_insert_all (task_prio os) l callers.*1) in *.
    destruct (release_times_run mask s q
                (OsState (os_tasks os') (os_sems os') releaser
                         (g_os_run_list os') (os_sched_calls os')))
      as (os'' & Hrun'' & _ & Hrl''); [done|by apply Hdom|].
    exists os', os'', q. split_and!; try done.
    + apply (prio_sorted_ext (task_prio os)); [done|].
      by apply prio_insert_all_sorted.
    + apply prio_insert_all_perm.
    + intros p. rewrite !(filter_prio_ext _ _ p _ Hprio).
      by apply prio_insert_all_fifo.
    + simpl in Hrl''. by rewrite Hrl'', Hrl.
  - intros mask. vm_compute. reflexivity.
  - intros mask. split; vm_compute; reflexivity.
Qed.

(** ** os_sem_delete *)

Lemma insert_unlink (ts : gmap nat os_task) (a : nat) tk :
  ts !! a = Some tk →
  <[a := OsTask (t_prio tk) (t_flags tk) None]> ts = alter unlink a ts.
Proof.
  intros Ha. apply map_eq. intros i. rewrite lookup_insert, lookup_alter.
  case_decide; subst; [by rewrite Ha|done].
Qed.

Lemma lookup_unlink_all (l : list nat) (ts : gmap nat os_task) (t : nat) :
  unlink_all l ts !! t = if decide (t ∈ l) then unlink <$> ts !! t else ts !! t.
Proof.
  revert ts. induction l as [|a l IH]; intros ts.
  - by rewrite decide_False by apply not_elem_of_nil.
  - change (unlink_all (a :: l) ts) with (unlink_all l (alter unlink a ts)).
    rewrite IH, lookup_alter.
    repeat case_decide; subst; try done; try (by destruct (ts !! t));
      exfalso;
      repeat match goal with
             | H : _ ∈ _ :: _ |- _ => apply elem_of_cons in H as [H|H]
             | H : ¬ (_ ∈ _ :: _) |- _ => apply not_elem_of_cons in H as [? ?]
             end; done.
Qed.

Lemma os_sem_delete_loop_run fuel s l os sm :
  os_sems os !! s = Some sm →
  is_queue (os_tasks os) (sem_head sm) l →
  (length l ≤ fuel)%nat →
  os_sem_delete_loop fuel s os =
    Some (tt, OsState (unlink_all l (os_tasks os))
                      (<[s := OsSem None (sem_tokens sm)]> (os_sems os))
                      (g_current_task os)
                      (g_os_run_list os ++ l)
                      (os_sched_calls os ++ (CallWakeup <$> l))).
Proof.
  revert fuel os sm. induction l as [|a l IH]; intros fuel os sm Hs Hq Hlen.
  - simpl in Hq. destruct fuel; simpl; munfold; mlookup;
      rewrite !app_nil_r, insert_id; try (by destruct os);
      by destruct sm; simpl in *; subst.
  - destruct Hq as (Hh & Hni & tk & Ha & Hq).
    destruct fuel as [|fuel]; [simpl in Hlen; lia|].
    set (os1 := OsState (<[a := OsTask (t_prio tk) (t_flags tk) None]> (os_tasks os))
                        (<[s := OsSem (t_sem_list tk) (sem_tokens sm)]> (os_sems os))
                        (g_current_task os)
                        (g_os_run_list os ++ [a])
                        (os_sched_calls os ++ [CallWakeup a])).
    assert (os_sem_delete_loop (S fuel) s os = os_sem_delete_loop fuel s os1) as ->.
    { simpl. munfold. mlookup. done. }
    rewrite (IH fuel os1 (OsSem (t_sem_list tk) (sem_tokens sm))).
    + simpl. rewrite insert_insert_eq, <- !app_assoc.
      by rewrite (insert_unlink _ _ _ Ha).
    + simpl. by rewrite lookup_insert_eq.
    + simpl. by apply is_queue_store.
    + simpl in Hlen. lia.
Qed.

Lemma task_prio_unlink_all l os rl cur calls sems t :
  task_prio (OsState (unlink_all l (os_tasks os)) sems cur rl calls) t =
  task_prio os t.
Proof.
  unfold task_prio. simpl. rewrite lookup_unlink_all.
  case_decide; [|done]. by destruct (os_tasks os !! t).
Qed.

Lemma os_sched_best_of_run l best os :
  is_Some (os_tasks os !! best) →
  Forall (λ t, is_Some (os_tasks os !! t)) l →
  os_sched_best_of best l os = Some (best_of (task_prio os) best l, os).
Proof.
  revert best. induction l as [|t l IH]; intros best [btk Hb] Hall; [done|].
  apply Forall_cons in Hall as [[ttk Ht] Hall].
  simpl. munfold. mlookup.
  assert (task_prio os t = t_prio ttk) as -> by (unfold task_prio; by rewrite Ht).
  assert (task_prio os best = t_prio btk) as -> by (unfold task_prio; by rewrite Hb).
  apply IH; [|done]. destruct (_ <? _); eauto.
Qed.

Lemma best_of_ext f g best l :
  (∀ t, f t = g t) → best_of f best l = best_of g best l.
Proof.
  intros E. revert best. induction l as [|t l IH]; intros best; simpl; [done|].
  by rewrite !E, IH.
Qed.

Lemma best_of_le prio best l : prio (best_of prio best l) ≤ prio best.
Proof.
  revert best. induction l as [|t l IH]; intros best; simpl; [lia|].
  destruct (prio t <? prio best) eqn:E; [|done].
  apply Z.ltb_lt in E. specialize (IH t). lia.
Qed.

Lemma best_of_in prio best l :
  best_of prio best l = best ∨ best_of prio best l ∈ l.
Proof.
  revert best. induction l as [|t l IH]; intros best; simpl; [by left|].
  destruct (prio t <? prio best).
  - right. destruct (IH t) as [->|Hin]; [by left|by right].
  - destruct (IH best) as [->|Hin]; [by left|right; by right].
Qed.

(** The task chosen is the running one exactly when no ready task has a
    strictly smaller priority value. *)
Lemma best_of_current prio cur l :
  best_of prio cur l ≠ cur ↔ ∃ t, t ∈ l ∧ prio t < prio cur.
Proof.
  split.
  - revert cur. induction l as [|t l IH]; intros cur; simpl; [done|].
    destruct (prio t <? prio cur) eqn:E.
    + apply Z.ltb_lt in E. intros _. exists t. split; [by left|done].
    + intros Hne. destruct (IH cur Hne) as (t' & Hin & Hlt).
      exists t'. split; [by right|done].
  - intros (t & Hin & Hlt) Heq.
    revert cur Hlt Heq. induction l as [|a l IH]; intros cur Hlt Heq.
    + by apply elem_of_nil in Hin.
    + simpl in Heq. destruct (prio a <? prio cur) eqn:E.
      * apply Z.ltb_lt in E. pose proof (best_of_le prio a l) as Hle.
        rewrite Heq in Hle. lia.
      * apply elem_of_cons in Hin as [->|Hin].
        -- apply Z.ltb_ge in E. lia.
        -- by apply (IH Hin cur).
Qed.

Lemma best_of_lt prio cur l :
  best_of prio cur l ≠ cur → prio (best_of prio cur l) < prio cur.
Proof.
  revert cur. induction l as [|t l IH]; intros cur; simpl; [done|].
  destruct (prio t <? prio cur) eqn:E; [|by apply IH].
  apply Z.ltb_lt in E. intros _. pose proof (best_of_le prio t l). lia.
Qed.

(** What [os_sem_delete] does to a semaphore with the waiters [l]. *)
Lemma os_sem_delete_run fuel os s l :
  wait_queue os s l →
  (length l ≤ fuel)%nat →
  is_Some (os_tasks os !! g_current_task os) →
  Forall (λ t, is_Some (os_tasks os !! t)) (g_os_run_list os) →
  let best := best_of (task_prio os) (g_current_task os) (g_os_run_list os ++ l) in
  os_sem_delete fuel (Some s) os =
    Some (OS_OK,
          OsState (unlink_all l (os_tasks os))
                  (<[s := OsSem None 0]> (os_sems os))
                  (g_current_task os)
                  (g_os_run_list os ++ l)
                  (os_sched_calls os ++ (CallWakeup <$> l) ++
                     (if decide (best = g_current_task os) then []
                      else [CallSched best]))).
Proof.
  intros (sm & Hs & Hq) Hlen Hcur Hrl best.
  unfold os_sem_delete, os_sched_get_current_task. unfold bind at 1.
  unfold set_sem_tokens, load_sem, store_sem. unfold bind at 2. unfold bind at 1.
  rewrite Hs. unfold bind at 1.
  rewrite (os_sem_delete_loop_run fuel s l _ (OsSem (sem_head sm) 0));
    [|simpl; by rewrite lookup_insert_eq|done|done].
  unfold os_sched_next_task, os_sched_get_current_task.
  unfold bind at 2. unfold bind at 1. cbn [g_current_task g_os_run_list].
  rewrite os_sched_best_of_run; cycle 1.
  { simpl. rewrite lookup_unlink_all. destruct Hcur as [c ->]. by case_decide. }
  { simpl. apply Forall_app. split.
    - eapply Forall_impl; [done|]. simpl. intros t [tk Ht].
      rewrite lookup_unlink_all, Ht. by case_decide.
    - apply Forall_forall. intros t Hin.
      destruct (is_queue_alloc _ _ _ t Hq Hin) as [tk Ht].
      rewrite lookup_unlink_all, Ht. by case_decide. }
  rewrite (best_of_ext _ (task_prio os)); cycle 1.
  { intros t. unfold task_prio. simpl. rewrite lookup_unlink_all.
    case_decide; [|done]. by destruct (os_tasks os !! t). }
  subst best. simpl. rewrite insert_insert_eq.
  generalize (best_of (task_prio os) (g_current_task os) (g_os_run_list os ++ l)).
  intros best.
  destruct (decide (best = g_current_task os)) as [->|Hne].
  - rewrite Nat.eqb_refl. simpl. munfold. by rewrite app_nil_r.
  - apply Nat.eqb_neq in Hne. rewrite Hne. simpl. munfold. simpl.
    by rewrite <- app_assoc.
Qed.

(** C1, as the code has it: [os_sem_delete] sets the tokens to zero, takes
    every waiter off the list, nulls its link and asks the scheduler to wake
    it, and leaves the list empty; it does not touch the wait flag of any
    task, so a waiter that went to sleep in [os_sem_pend] finds its flag
    still set when it runs again, clears it itself and returns
    [OS_TIMEOUT], never [OS_OK]. *)
Theorem os_sem_delete_spec (mask : Z) (fuel : nat) (os : os_state) (s : nat)
    (l : list nat) :
  wait_queue os s l →
  (length l ≤ fuel)%nat →
  is_Some (os_tasks os !! g_current_task os) →
  Forall (λ t, is_Some (os_tasks os !! t)) (g_os_run_list os) →
  ∃ os',
    os_sem_delete fuel (Some s) os = Some (OS_OK, os') ∧
    token_count os' s = 0 ∧
    wait_queue os' s [] ∧
    (∀ t, t ∈ l →
       task_flags os' t = task_flags os t ∧
       task_link os' t = None ∧
       CallWakeup t ∈ os_sched_calls os' ∧
       t ∈ g_os_run_list os') ∧
    (∀ t, t ∉ l → os_tasks os' !! t = os_tasks os !! t) ∧
    (∃ resched,
       os_sched_calls os' = os_sched_calls os ++ (CallWakeup <$> l) ++ resched ∧
       (resched = [] ∨ ∃ r, resched = [CallSched r])) ∧
    (∀ t, t ∈ l → Z.land (task_flags os t) mask ≠ 0 →
       ∃ os'',
         os_sem_pend_wakeup mask t os' = Some (OS_TIMEOUT, os'') ∧
         Z.land (task_flags os'' t) mask = 0).
Proof.
  intros Hq Hlen Hcur Hrl.
  eexists. split; [by apply os_sem_delete_run|].
  destruct Hq as (sm & Hs & Hq).
  unfold token_count, wait_queue, task_flags, task_link. simpl.
  split_and!.
  - by rewrite lookup_insert_eq.
  - eexists. by rewrite lookup_insert_eq.
  - intros t Hin. destruct (is_queue_alloc _ _ _ t Hq Hin) as [tk Ht].
    rewrite lookup_unlink_all, decide_True, Ht by done. simpl.
    split_and!; try done.
    + apply elem_of_app. right. apply elem_of_app. left.
      by apply list_elem_of_fmap_2.
    + apply elem_of_app. by right.
  - intros t Hni. by rewrite lookup_unlink_all, decide_False.
  - eexists. split; [done|]. case_decide; eauto.
  - intros t Hin Hflag. destruct (is_queue_alloc _ _ _ t Hq Hin) as [tk Ht].
    rewrite Ht in Hflag. simpl in Hflag.
    eexists. split.
    + apply (os_sem_pend_wakeup_timeout _ _ _ (unlink tk)); [|done].
      simpl. by rewrite lookup_unlink_all, decide_True, Ht.
    + simpl. rewrite lookup_insert_eq. simpl.
      rewrite <- Z.land_assoc, (Z.land_comm (Z.lnot mask)), Z.land_lnot_diag.
      apply Z.land_0_r.
Qed.

(** C9: with [os_sched_next_task] as the spec describes it, [os_sem_delete]
    asks for a reschedule, after it has woken the waiters, exactly when some
    ready task, the woken ones included, has a priority value strictly below
    that of the running task. *)
Theorem os_sem_delete_resched (fuel : nat) (os : os_state) (s : nat) (l : list nat) :
  wait_queue os s l →
  (length l ≤ fuel)%nat →
  is_Some (os_tasks os !! g_current_task os) →
  Forall (λ t, is_Some (os_tasks os !! t)) (g_os_run_list os) →
  ∃ os' resched,
    os_sem_delete fuel (Some s) os = Some (OS_OK, os') ∧
    g_os_run_list os' = g_os_run_list os ++ l ∧
    g_current_task os' = g_current_task os ∧
    os_sched_calls os' = os_sched_calls os ++ (CallWakeup <$> l) ++ resched ∧
    (resched = [] ∨
     ∃ r, resched = [CallSched r] ∧ r ∈ g_os_run_list os' ∧
          task_prio os' r < task_prio os' (g_current_task os')) ∧
    (resched ≠ [] ↔
     ∃ t, t ∈ g_os_run_list os' ∧
          task_prio os' t < task_prio os' (g_current_task os')).
Proof.
  intros Hq Hlen Hcur Hrl.
  eexists _, _. split; [by apply os_sem_delete_run|].
  simpl. split_and!; try done.
  - case_decide as Hb; [by left|right]. eexists. split; [done|].
    rewrite !task_prio_unlink_all.
    destruct (best_of_in (task_prio os) (g_current_task os) (g_os_run_list os ++ l))
      as [?|Hin]; [done|]. split; [done|]. by apply best_of_lt.
  - assert ((∃ t, t ∈ g_os_run_list os ++ l ∧
                  task_prio os t < task_prio os (g_current_task os)) ↔
            best_of (task_prio os) (g_current_task os) (g_os_run_list os ++ l)
              ≠ g_current_task os) as Hiff.
    { symmetry. apply best_of_current. }
    setoid_rewrite task_prio_unlink_all. rewrite Hiff.
    case_decide as Hb; split; done.
Qed.

(** ** What a call that returns tells about the state

    The lemmas of this part make no assumption on the state: they hold on
    any store, also one whose list is damaged. *)

Lemma bind_inv {A B} (m : M A) (k : A → M B) os b os' :
  bind m k os = Some (b, os') → ∃ a os1, m os = Some (a, os1) ∧ k a os1 = Some (b, os').
Proof. unfold bind. destruct (m os) as [[a os1]|]; [eauto|done]. Qed.

Lemma ret_inv {A} (a b : A) os os' : ret a os = Some (b, os') → b = a ∧ os' = os.
Proof. unfold ret. by intros [= -> ->]. Qed.

Lemma load_task_inv t os tk os' :
  load_task t os = Some (tk, os') → os' = os ∧ os_tasks os !! t = Some tk.
Proof. unfold load_task. destruct (os_tasks os !! t); by intros [= -> ->]. Qed.

Lemma load_sem_inv s os sm os' :
  load_sem s os = Some (sm, os') → os' = os ∧ os_sems os !! s = Some sm.
Proof. unfold load_sem. destruct (os_sems os !! s); by intros [= -> ->]. Qed.

Lemma store_task_inv t tk os u os' :
  store_task t tk os = Some (u, os') → os' = with_tasks (<[t := tk]>) os.
Proof. unfold store_task. by intros [= _ <-]. Qed.

Lemma store_sem_inv s sm os u os' :
  store_sem s sm os = Some (u, os') → os' = with_sems (<[s := sm]>) os.
Proof. unfold store_sem. by intros [= _ <-]. Qed.

Lemma os_sem_pend_scan_inv fuel cur entry last os r os' :
  os_sem_pend_scan fuel cur entry last os = Some (r, os') → os' = os.
Proof.
  revert entry last. induction fuel as [|fuel IH]; intros [e|] last; simpl;
    try (by intros [= _ <-]); try done.
  munfold. destruct (os_tasks os !! cur) as [c|] eqn:Hc; [|done]. simpl.
  destruct (os_tasks os !! e) as [tk|] eqn:He; [|done]. simpl.
  destruct (_ <? _); [by intros [= _ <-]|]. rewrite He. simpl. apply IH.
Qed.

Ltac munfold_ops :=
  unfold os_sem_release, os_sem_create, os_sem_pend, os_sem_pend_critical,
    os_sem_pend_wakeup, os_sem_delete, os_sem_pend_enter, 
    SLIST_INSERT_AFTER, SLIST_INSERT_HEAD, SLIST_REMOVE_HEAD, SLIST_EMPTY,
    SLIST_SET_FIRST, SLIST_FIRST,
    get_t_flags, set_t_flags, get_t_prio, get_t_sem_list, set_t_sem_list,
    get_sem_tokens, set_sem_tokens in *.

Ltac minv1 :=
  match goal with
  | H : bind _ _ _ = Some _ |- _ =>
      let a := fresh "a" in let o := fresh "os" in
      apply bind_inv in H as (a & o & ? & H)
  | H : ret _ _ = Some _ |- _ => apply ret_inv in H as [? ?]; subst
  | H : fault _ = Some _ |- _ => discriminate H
  | H : load_task _ _ = Some _ |- _ => apply load_task_inv in H as [? ?]; subst
  | H : load_sem _ _ = Some _ |- _ => apply load_sem_inv in H as [? ?]; subst
  | H : store_task _ _ _ = Some _ |- _ => apply store_task_inv in H; subst
  | H : store_sem _ _ _ = Some _ |- _ => apply store_sem_inv in H; subst
  | H : os_sem_pend_scan _ _ _ _ _ = Some _ |- _ => apply os_sem_pend_scan_inv in H; subst
  | H : os_sched_get_current_task _ = Some _ |- _ => injection H as ? ?; subst
  | H : os_sched_wakeup _ _ = Some _ |- _ => injection H as ?; subst
  | H : os_sched _ _ = Some _ |- _ => injection H as ?; subst
  | H : os_sched_switch_to _ _ = Some _ |- _ => injection H as ?; subst
  | H : (match ?x with _ => _ end) _ = Some _ |- _ => destruct x eqn:?
  | H : (if ?x then _ else _) _ = Some _ |- _ => destruct x eqn:?
  end.
Ltac bool_hyps :=
  repeat match goal with
         | H : negb _ = true |- _ => apply negb_true_iff in H
         | H : negb _ = false |- _ => apply negb_false_iff in H
         | H : (_ =? _) = true |- _ => apply Z.eqb_eq in H
         | H : (_ =? _) = false |- _ => apply Z.eqb_neq in H
         | H : bool_decide _ = true |- _ => apply bool_decide_eq_true in H
         | H : bool_decide _ = false |- _ => apply bool_decide_eq_false in H
         end.

Ltac minv := munfold_ops; repeat minv1; simpl in *; simplify_eq; bool_hyps.

Ltac frame_lookup :=
  repeat match goal with
  | H : context [<[_ := _]> _ !! _] |- _ => rewrite lookup_insert in H
  | |- context [<[_ := _]> _ !! _] => rewrite lookup_insert
  | H : context [decide (?a = ?b)] |- _ => destruct (decide (a = b)); simplify_eq/=
  | |- context [decide (?a = ?b)] => destruct (decide (a = b)); simplify_eq/=
  end.

Ltac solve_related :=
  unfold tasks_related; intros ?t; simpl; frame_lookup;
  repeat match goal with
         | H : ?m !! ?k = _ |- context [?m !! ?k] => rewrite H
         end;
  try done;
  repeat match goal with
         | |- context [match ?m !! ?k with _ => _ end] => destruct (m !! k)
         end;
  done.

Lemma os_sem_pend_critical_inv mask fuel s cur timeout os out os' :
  os_sem_pend_critical mask fuel s cur timeout os = Some (out, os') →
  ∃ sm, os_sems os !! s = Some sm ∧
    g_current_task os' = g_current_task os ∧
    g_os_run_list os' = g_os_run_list os ∧
    os_sched_calls os' = os_sched_calls os ∧
    (∀ s0, s0 ≠ s → os_sems os' !! s0 = os_sems os !! s0) ∧
    ((sem_tokens sm ≠ 0 ∧ out = PendReturn OS_OK ∧
      os_tasks os' = os_tasks os ∧
      os_sems os' !! s = Some (OsSem (sem_head sm) (to_uint16 (sem_tokens sm - 1)))) ∨
     (sem_tokens sm = 0 ∧ timeout = 0 ∧ out = PendReturn OS_TIMEOUT ∧ os' = os) ∨
     (sem_tokens sm = 0 ∧ timeout ≠ 0 ∧ out = PendSleep ∧
      (∃ h, os_sems os' !! s = Some (OsSem h 0)) ∧
      tasks_related
        (λ t a b, t_prio b = t_prio a ∧
                  t_flags b = if decide (t = cur) then Z.lor (t_flags a) mask
                              else t_flags a) os os')).
Proof.
  intros H. minv.
  1: { eexists. split; [done|]. split_and!; try done.
       - intros s0 Hne. by rewrite lookup_insert_ne.
       - left. split_and!; try done. by rewrite lookup_insert_eq. }
  1: { eexists. split; [done|]. split_and!; try done. by right; left. }
  all: eexists; (split; [done|]); split_and!; try done.
  all: try (intros s0 Hne; by rewrite lookup_insert_ne).
  all: right; right; split_and!; try done; [|solve_related].
  all: match goal with
       | Hs : os_sems _ !! _ = Some ?a |- _ =>
           destruct a; simpl in *; subst; eexists;
           rewrite ?lookup_insert_eq, ?Hs; done
       end.
Qed.

Lemma os_sem_release_inv mask s os rc os' :
  os_sem_release mask (Some s) os = Some (rc, os') →
  rc = OS_OK ∧
  g_current_task os' = g_current_task os ∧
  (∀ s0, s0 ≠ s → os_sems os' !! s0 = os_sems os !! s0) ∧
  ∃ sm, os_sems os !! s = Some sm ∧
    match sem_head sm with
    | None =>
        os_tasks os' = os_tasks os ∧
        os_sems os' !! s = Some (OsSem None (to_uint16 (sem_tokens sm + 1)))
    | Some r =>
        (∃ h, os_sems os' !! s = Some (OsSem h (sem_tokens sm))) ∧
        tasks_related
          (λ t a b, t_prio b = t_prio a ∧
                    t_flags b = if decide (t = r)
                                then Z.land (t_flags a) (Z.lnot mask)
                                else t_flags a) os os'
    end.
Proof.
  intros H. minv.
  all: split_and!; try done.
  all: try (intros s0 Hne; by rewrite lookup_insert_ne).
  all: eexists; (split; [done|]).
  all: match goal with H : sem_head _ = _ |- _ => rewrite H end.
  all: split; [try done; eexists; by rewrite lookup_insert_eq|].
  all: try (by rewrite lookup_insert_eq).
  all: solve_related.
Qed.

Lemma os_sem_pend_wakeup_inv mask cur os rc os' :
  os_sem_pend_wakeup mask cur os = Some (rc, os') →
  os_sems os' = os_sems os ∧
  g_current_task os' = g_current_task os ∧
  g_os_run_list os' = g_os_run_list os ∧
  os_sched_calls os' = os_sched_calls os ∧
  ∃ ctk, os_tasks os !! cur = Some ctk ∧
    ((Z.land (t_flags ctk) mask ≠ 0 ∧ rc = OS_TIMEOUT ∧
      os_tasks os' = <[cur := OsTask (t_prio ctk) (Z.land (t_flags ctk) (Z.lnot mask))
                                     (t_sem_list ctk)]> (os_tasks os)) ∨
     (Z.land (t_flags ctk) mask = 0 ∧ rc = OS_OK ∧ os' = os)).
Proof.
  intros H. minv.
  - split_and!; try done. eexists. split; [done|]. by left.
  - split_and!; try done. eexists. split; [done|]. by right.
Qed.

Lemma os_sem_delete_loop_inv fuel s os u os' :
  os_sem_delete_loop fuel s os = Some (u, os') →
  g_current_task os' = g_current_task os ∧
  (∀ s0, s0 ≠ s → os_sems os' !! s0 = os_sems os !! s0) ∧
  (∃ sm, os_sems os !! s = Some sm ∧
         os_sems os' !! s = Some (OsSem None (sem_tokens sm))) ∧
  tasks_related (λ t a b, t_prio b = t_prio a ∧ t_flags b = t_flags a) os os'.
Proof.
  revert os. induction fuel as [|fuel IH]; intros os H; simpl in H; minv.
  2: { match goal with
       | Hrec : os_sem_delete_loop _ _ _ = Some _ |- _ =>
           apply IH in Hrec as (Hc & Hs & (sm & Hsm & Hsm') & Hrel)
       end.
       simpl in *. rewrite lookup_insert_eq in Hsm. simplify_eq.
       split_and!; try done.
       - intros s0 Hne. rewrite Hs by done. by rewrite lookup_insert_ne.
       - eexists. split; [done|]. done.
       - intros t. specialize (Hrel t). simpl in *. revert Hrel. frame_lookup.
         all: repeat match goal with
                | H : ?m !! ?k = _ |- context [?m !! ?k] => rewrite H
                end; try done.
         all: destruct (os_tasks os' !! t); try done. }
  all: split_and!; try done; [|solve_related].
  all: match goal with
       | Hs : os_sems _ !! _ = Some ?a |- _ =>
           exists a; split; [done|]; rewrite Hs; destruct a; simpl in *; by subst
       end.
Qed.

Lemma os_sched_best_of_inv best l os r os' :
  os_sched_best_of best l os = Some (r, os') → os' = os.
Proof.
  revert best. induction l as [|t l IH]; intros best H; simpl in H; minv; eauto.
Qed.

Lemma os_sem_delete_inv fuel s os rc os' :
  os_sem_delete fuel (Some s) os = Some (rc, os') →
  rc = OS_OK ∧
  g_current_task os' = g_current_task os ∧
  (∀ s0, s0 ≠ s → os_sems os' !! s0 = os_sems os !! s0) ∧
  os_sems os' !! s = Some (OsSem None 0) ∧
  tasks_related (λ t a b, t_prio b = t_prio a ∧ t_flags b = t_flags a) os os'.
Proof.
  intros H. unfold os_sem_delete, os_sched_next_task in H. minv.
  all: repeat match goal with
         | Hl : os_sem_delete_loop _ _ _ = Some _ |- _ =>
             apply os_sem_delete_loop_inv in Hl as (Hc & Hs & (sm & Hsm & Hsm') & Hrel)
         | Hb : os_sched_best_of _ _ _ = Some _ |- _ =>
             apply os_sched_best_of_inv in Hb; subst
         end; simpl in *.
  all: rewrite lookup_insert_eq in Hsm; simplify_eq.
  all: split_and!; try done.
  all: intros s0 Hne; rewrite Hs by done; by rewrite lookup_insert_ne.
Qed.

(** ** The invariant of the semaphore *)

Lemma token_count_lookup os s sm :
  os_sems os !! s = Some sm → token_count os s = sem_tokens sm.
Proof. unfold token_count. by intros ->. Qed.

Lemma wait_queue_nil os s sm :
  os_sems os !! s = Some sm → sem_head sm = None → wait_queue os s [].
Proof. intros Hs Hh. by exists sm. Qed.

Lemma wait_queue_nil_inv os s sm :
  wait_queue os s [] → os_sems os !! s = Some sm → sem_head sm = None.
Proof. intros (sm' & Hs' & Hq) Hs. by simplify_eq. Qed.

Lemma sem_inv_other os os' s0 :
  os_sems os' !! s0 = os_sems os !! s0 →
  tokens_ok os s0 ∧ sem_inv os s0 → tokens_ok os' s0 ∧ sem_inv os' s0.
Proof.
  unfold tokens_ok, sem_inv, token_count, wait_queue. intros ->. done.
Qed.

Lemma to_uint16_range z : 0 ≤ to_uint16 z < 65536.
Proof. unfold to_uint16. apply Z.mod_pos_bound. lia. Qed.

Lemma os_sem_release_keeps_inv mask sem os rc os' s0 :
  os_sem_release mask sem os = Some (rc, os') →
  tokens_ok os s0 ∧ sem_inv os s0 → tokens_ok os' s0 ∧ sem_inv os' s0.
Proof.
  destruct sem as [s|]; [|by intros [= _ <-]].
  intros H. apply os_sem_release_inv in H as (_ & _ & Hother & sm & Hs & H).
  destruct (decide (s0 = s)) as [->|Hne]; [|by apply sem_inv_other, Hother].
  unfold tokens_ok, sem_inv. rewrite (token_count_lookup os s sm Hs).
  intros [Hrange Hinv]. destruct (sem_head sm) as [r|] eqn:Hh.
  - destruct H as [[h Hs'] _]. rewrite (token_count_lookup _ _ _ Hs'). simpl.
    split; [done|]. intros Hpos.
    by rewrite (wait_queue_nil_inv os s sm (Hinv Hpos) Hs) in Hh.
  - destruct H as [_ Hs']. rewrite (token_count_lookup _ _ _ Hs'). simpl.
    split; [apply to_uint16_range|]. intros _. by eapply wait_queue_nil.
Qed.

Lemma os_sem_pend_critical_keeps_inv mask fuel s cur timeout os out os' s0 :
  os_sem_pend_critical mask fuel s cur timeout os = Some (out, os') →
  tokens_ok os s0 ∧ sem_inv os s0 → tokens_ok os' s0 ∧ sem_inv os' s0.
Proof.
  intros H.
  apply os_sem_pend_critical_inv in H as (sm & Hs & _ & _ & _ & Hother & H).
  destruct (decide (s0 = s)) as [->|Hne]; [|by apply sem_inv_other, Hother].
  unfold tokens_ok, sem_inv. rewrite (token_count_lookup os s sm Hs).
  intros [Hrange Hinv].
  destruct H as [(Hn & _ & _ & Hs')|[(_ & _ & _ & ->)|(_ & _ & _ & [h Hs'] & _)]].
  - rewrite (token_count_lookup _ _ _ Hs'). simpl.
    split; [apply to_uint16_range|]. intros _.
    eapply wait_queue_nil; [done|]. simpl.
    apply (wait_queue_nil_inv os s sm); [|done]. apply Hinv. lia.
  - by rewrite (token_count_lookup os s sm Hs).
  - rewrite (token_count_lookup _ _ _ Hs'). simpl. split; [lia|lia].
Qed.

Lemma os_sem_pend_wakeup_keeps_inv mask cur os rc os' s0 :
  os_sem_pend_wakeup mask cur os = Some (rc, os') →
  tokens_ok os s0 ∧ sem_inv os s0 → tokens_ok os' s0 ∧ sem_inv os' s0.
Proof.
  intros H. apply os_sem_pend_wakeup_inv in H as (Hs & _).
  apply sem_inv_other. by rewrite Hs.
Qed.

Lemma os_sem_delete_keeps_inv fuel sem os rc os' s0 :
  os_sem_delete fuel sem os = Some (rc, os') →
  tokens_ok os s0 ∧ sem_inv os s0 → tokens_ok os' s0 ∧ sem_inv os' s0.
Proof.
  destruct sem as [s|]; [|by intros [= _ <-]].
  intros H. apply os_sem_delete_inv in H as (_ & _ & Hother & Hs' & _).
  destruct (decide (s0 = s)) as [->|Hne]; [|by apply sem_inv_other, Hother].
  unfold tokens_ok, sem_inv. rewrite (token_count_lookup _ _ _ Hs'). simpl.
  intros _. split; [lia|lia].
Qed.

(** C2: "[token_count > 0] implies the wait queue is empty" holds after
    [os_sem_create] and is kept, for every semaphore, by every call of
    [os_sem_pend] (before and after its sleep), [os_sem_release] and
    [os_sem_delete] that returns, the counter staying in the range of its
    type; [os_sem_pend] puts its caller to sleep only when the counter is
    zero, and [os_sem_release] changes the counter only when nobody waits. *)
Theorem sem_inv_preserved (mask : Z) (s0 : nat) :
  (∀ s tokens os rc os',
     0 ≤ tokens < 65536 →
     os_sem_create (Some s) tokens os = Some (rc, os') →
     tokens_ok os' s ∧ sem_inv os' s) ∧
  (∀ fuel s cur timeout os out os',
     os_sem_pend_critical mask fuel s cur timeout os = Some (out, os') →
     (tokens_ok os s0 ∧ sem_inv os s0 → tokens_ok os' s0 ∧ sem_inv os' s0) ∧
     (out = PendSleep → token_count os s = 0) ∧
     (token_count os s ≠ 0 →
      os_tasks os' = os_tasks os ∧ ∀ l, wait_queue os s l → wait_queue os' s l)) ∧
  (∀ cur os rc os',
     os_sem_pend_wakeup mask cur os = Some (rc, os') →
     tokens_ok os s0 ∧ sem_inv os s0 → tokens_ok os' s0 ∧ sem_inv os' s0) ∧
  (∀ sleep fuel sem timeout os rc os',
     (∀ t to o u o', sleep t to o = Some (u, o') →
        tokens_ok o s0 ∧ sem_inv o s0 → tokens_ok o' s0 ∧ sem_inv o' s0) →
     os_sem_pend mask sleep fuel sem timeout os = Some (rc, os') →
     tokens_ok os s0 ∧ sem_inv os s0 → tokens_ok os' s0 ∧ sem_inv os' s0) ∧
  (∀ sem os rc os',
     os_sem_release mask sem os = Some (rc, os') →
     (tokens_ok os s0 ∧ sem_inv os s0 → tokens_ok os' s0 ∧ sem_inv os' s0) ∧
     (∀ s, sem = Some s → token_count os' s ≠ token_count os s →
           wait_queue os s [])) ∧
  (∀ fuel sem os rc os',
     os_sem_delete fuel sem os = Some (rc, os') →
     tokens_ok os s0 ∧ sem_inv os s0 → tokens_ok os' s0 ∧ sem_inv os' s0).
Proof.
  split_and!.
  - intros s tokens os rc os' Hrange H.
    rewrite os_sem_create_run in H. injection H as _ <-.
    assert (os_sems (with_sems (<[s := OsSem None tokens]>) os) !! s =
            Some (OsSem None tokens)) as Hs by apply lookup_insert_eq.
    unfold tokens_ok, sem_inv. rewrite (token_count_lookup _ _ _ Hs).
    split; [done|]. intros _. by eapply wait_queue_nil.
  - intros fuel s cur timeout os out os' H. split_and!.
    + by eapply os_sem_pend_critical_keeps_inv.
    + apply os_sem_pend_critical_inv in H as (sm & Hs & _ & _ & _ & _ & H).
      rewrite (token_count_lookup os s sm Hs). intros ->.
      by destruct H as [(_ & ? & _)|[(_ & _ & ? & _)|(? & _)]].
    + apply os_sem_pend_critical_inv in H as (sm & Hs & _ & _ & _ & _ & H).
      rewrite (token_count_lookup os s sm Hs). intros Hn.
      destruct H as [(_ & _ & Hts & Hs')|[(? & _)|(? & _)]]; try done.
      split; [done|]. intros l (sm' & Hsm' & Hq). simplify_eq.
      eexists. split; [done|]. simpl. by rewrite Hts.
  - intros cur os rc os'. apply os_sem_pend_wakeup_keeps_inv.
  - intros sleep fuel sem timeout os rc os' Hsleep H Hinv.
    destruct sem as [s|]; [|by injection H as _ <-].
    unfold os_sem_pend in H.
    apply bind_inv in H as (cur & os1 & [= <- <-] & H).
    apply bind_inv in H as (out & os2 & Hcs & H).
    apply (os_sem_pend_critical_keeps_inv _ _ _ _ _ _ _ _ s0) in Hcs; [|done].
    destruct out as [rc0|].
    + by injection H as _ <-.
    + apply bind_inv in H as (u & os3 & Hsl & H).
      eapply os_sem_pend_wakeup_keeps_inv; [done|].
      by eapply Hsleep.
  - intros sem os rc os' H. split; [by eapply os_sem_release_keeps_inv|].
    intros s -> Hne.
    apply os_sem_release_inv in H as (_ & _ & _ & sm & Hs & H).
    destruct (sem_head sm) as [r|] eqn:Hh; [|by eapply wait_queue_nil].
    destruct H as [[h Hs'] _]. exfalso. apply Hne.
    by rewrite (token_count_lookup _ _ _ Hs'), (token_count_lookup _ _ _ Hs).
  - intros fuel sem os rc os'. apply os_sem_delete_keeps_inv.
Qed.

(** ** What the operations leave alone in the task descriptors *)

Lemma testbit_clear_other f m i :
  Z.testbit m i = false → Z.testbit (Z.land f (Z.lnot m)) i = Z.testbit f i.
Proof.
  intros Hm. destruct (Z.neg_nonneg_cases i) as [Hneg|Hpos].
  - by rewrite !Z.testbit_neg_r.
  - rewrite Z.land_spec, Z.lnot_spec, Hm by done. apply andb_true_r.
Qed.

Lemma testbit_set_other f m i :
  Z.testbit m i = false → Z.testbit (Z.lor f m) i = Z.testbit f i.
Proof. intros Hm. rewrite Z.lor_spec, Hm. apply orb_false_r. Qed.

Lemma tasks_related_impl (R R' : nat → os_task → os_task → Prop) os os' :
  (∀ t a b, R t a b → R' t a b) → tasks_related R os os' → tasks_related R' os os'.
Proof.
  intros HR H t. specialize (H t).
  destruct (os_tasks os !! t), (os_tasks os' !! t); eauto.
Qed.

Lemma tasks_frame_refl mask os : tasks_frame mask os os.
Proof. intros t. by destruct (os_tasks os !! t). Qed.

Lemma tasks_frame_trans mask os1 os2 os3 :
  tasks_frame mask os1 os2 → tasks_frame mask os2 os3 → tasks_frame mask os1 os3.
Proof.
  intros H12 H23 t. specialize (H12 t). specialize (H23 t).
  destruct (os_tasks os1 !! t), (os_tasks os2 !! t), (os_tasks os3 !! t);
    try done.
  destruct H12 as [Hp12 Hf12], H23 as [Hp23 Hf23]. split; [congruence|].
  intros i Hi. by rewrite Hf23, Hf12.
Qed.

Lemma os_sem_release_frame mask sem os rc os' :
  os_sem_release mask sem os = Some (rc, os') → tasks_frame mask os os'.
Proof.
  destruct sem as [s|]; [|intros [= _ <-]; apply tasks_frame_refl].
  intros H. apply os_sem_release_inv in H as (_ & _ & _ & sm & _ & H).
  destruct (sem_head sm) as [r|].
  - destruct H as [_ H]. eapply tasks_related_impl; [|done]. simpl.
    intros t a b [Hp Hf]. split; [done|]. intros i Hi. rewrite Hf.
    case_decide; [by apply testbit_clear_other|done].
  - destruct H as [Hts _]. intros t. rewrite Hts.
    by destruct (os_tasks os !! t).
Qed.

Lemma os_sem_pend_critical_frame mask fuel s cur timeout os out os' :
  os_sem_pend_critical mask fuel s cur timeout os = Some (out, os') →
  tasks_frame mask os os'.
Proof.
  intros H. apply os_sem_pend_critical_inv in H as (sm & _ & _ & _ & _ & _ & H).
  destruct H as [(_ & _ & Hts & _)|[(_ & _ & _ & ->)|(_ & _ & _ & _ & H)]].
  - intros t. rewrite Hts. by destruct (os_tasks os !! t).
  - apply tasks_frame_refl.
  - eapply tasks_related_impl; [|done]. simpl.
    intros t a b [Hp Hf]. split; [done|]. intros i Hi. rewrite Hf.
    case_decide; [by apply testbit_set_other|done].
Qed.

Lemma os_sem_pend_wakeup_frame mask cur os rc os' :
  os_sem_pend_wakeup mask cur os = Some (rc, os') → tasks_frame mask os os'.
Proof.
  intros H. apply os_sem_pend_wakeup_inv in H as (_ & _ & _ & _ & ctk & Hc & H).
  destruct H as [(_ & _ & Hts)|(_ & _ & ->)]; [|apply tasks_frame_refl].
  intros t. rewrite Hts, lookup_insert. case_decide; subst.
  - rewrite Hc. split; [done|]. intros i Hi. by apply testbit_clear_other.
  - by destruct (os_tasks os !! t).
Qed.

Lemma os_sem_delete_frame mask fuel sem os rc os' :
  os_sem_delete fuel sem os = Some (rc, os') → tasks_frame mask os os'.
Proof.
  destruct sem as [s|]; [|intros [= _ <-]; apply tasks_frame_refl].
  intros H. apply os_sem_delete_inv in H as (_ & _ & _ & _ & H).
  eapply tasks_related_impl; [|done]. simpl.
  intros t a b [Hp Hf]. split; [done|]. intros i Hi. by rewrite Hf.
Qed.

(** C10: a call of [os_sem_create], [os_sem_pend], [os_sem_release] or
    [os_sem_delete] that returns has created or removed no task descriptor,
    has changed no priority, and has changed no bit of any [t_flags] outside
    [OS_TASK_FLAG_SEM_WAIT]; for a mask of one bit, [2 ^ k], every bit other
    than bit [k] is as before.  What the caller's sleep in [os_sem_pend]
    does to the descriptors is up to [os_sched_sleep]. *)
Theorem os_sem_flags_frame (mask : Z) :
  (∀ sem tokens os rc os',
     os_sem_create sem tokens os = Some (rc, os') → tasks_frame mask os os') ∧
  (∀ sem os rc os',
     os_sem_release mask sem os = Some (rc, os') → tasks_frame mask os os') ∧
  (∀ fuel sem os rc os',
     os_sem_delete fuel sem os = Some (rc, os') → tasks_frame mask os os') ∧
  (∀ fuel s cur timeout os out os',
     os_sem_pend_critical mask fuel s cur timeout os = Some (out, os') →
     tasks_frame mask os os') ∧
  (∀ cur os rc os',
     os_sem_pend_wakeup mask cur os = Some (rc, os') → tasks_frame mask os os') ∧
  (∀ sleep fuel sem timeout os rc os',
     (∀ t to o u o', sleep t to o = Some (u, o') → tasks_frame mask o o') →
     os_sem_pend mask sleep fuel sem timeout os = Some (rc, os') →
     tasks_frame mask os os') ∧
  (∀ k os os' t a b i,
     mask = 2 ^ k → 0 ≤ k → tasks_frame mask os os' →
     os_tasks os !! t = Some a → os_tasks os' !! t = Some b →
     i ≠ k →
     t_prio b = t_prio a ∧ Z.testbit (t_flags b) i = Z.testbit (t_flags a) i).
Proof.
  split_and!.
  - intros [s|] tokens os rc os' [= _ <-]; intros t; simpl;
      by destruct (os_tasks os !! t).
  - apply os_sem_release_frame.
  - intros fuel sem os rc os'. apply os_sem_delete_frame.
  - apply os_sem_pend_critical_frame.
  - apply os_sem_pend_wakeup_frame.
  - intros sleep fuel sem timeout os rc os' Hsleep H.
    destruct sem as [s|]; [|injection H as _ <-; apply tasks_frame_refl].
    unfold os_sem_pend in H.
    apply bind_inv in H as (cur & os1 & [= <- <-] & H).
    apply bind_inv in H as (out & os2 & Hcs & H).
    apply os_sem_pend_critical_frame in Hcs.
    destruct out as [rc0|].
    + by injection H as _ <-.
    + apply bind_inv in H as (u & os3 & Hsl & H).
      eapply tasks_frame_trans; [done|].
      eapply tasks_frame_trans; [by eapply Hsleep|].
      by eapply os_sem_pend_wakeup_frame.
  - intros k os os' t a b i -> Hk H Ha Hb Hi. specialize (H t).
    rewrite Ha, Hb in H. destruct H as [Hp Hf]. split; [done|].
    apply Hf. by apply Z.pow2_bits_false.
Qed.

(** ** Sequences of calls: the count of tokens *)

Lemma sem_step_tokens mask fuel s c os n os' :
  sem_step mask fuel s c os = Some (n, os') →
  tokens_ok os s →
  tokens_ok os' s ∧
  (n.1 = 0 ∨ n.1 = 1) ∧ (n.2 = 0 ∨ n.2 = 1) ∧
  token_count os' s = to_uint16 (token_count os s + n.1 - n.2) ∧
  token_count os' s ≤ token_count os s + n.1 - n.2.
Proof.
  intros H Hok. unfold tokens_ok in *. destruct c as [t timeout|t]; simpl in H.
  - apply bind_inv in H as (u & osw & [= <- <-] & H).
    match type of H with bind _ _ ?o = _ => set (osw := o) in * end.
    change (token_count os s) with (token_count osw s) in *. clearbody osw.
    apply bind_inv in H as (out & os2 & Hcs & H).
    unfold os_sem_pend_enter in Hcs.
    apply bind_inv in Hcs as (cur & os1 & [= <- <-] & Hcs).
    apply os_sem_pend_critical_inv in Hcs as (sm & Hs & _ & _ & _ & _ & Hcs).
    rewrite (token_count_lookup _ _ _ Hs) in *.
    destruct Hcs as [(Hn & -> & _ & Hs')|[(Hn & _ & -> & ->)|(Hn & _ & -> & [h Hs'] & _)]].
    + injection H as <- <-. rewrite (token_count_lookup _ _ _ Hs'). simpl.
      unfold to_uint16. rewrite Z.mod_small by lia.
      replace (sem_tokens sm + 0 - 1) with (sem_tokens sm - 1) by lia.
      rewrite Z.mod_small by lia. lia.
    + injection H as <- <-. simpl. rewrite (token_count_lookup _ _ _ Hs).
      unfold to_uint16.
      replace (sem_tokens sm + 0 - 0) with (sem_tokens sm) by lia.
      rewrite Z.mod_small by lia. lia.
    + injection H as <- <-. simpl.
      rewrite (token_count_lookup _ _ _ Hs'). simpl. rewrite Hn.
      change (to_uint16 (0 + 0 - 0)) with 0. lia.
  - apply bind_inv in H as (u & osw & [= <- <-] & H).
    match type of H with bind _ _ ?o = _ => set (osw := o) in * end.
    change (token_count os s) with (token_count osw s) in *. clearbody osw.
    apply bind_inv in H as (waiter & os2 & Hw & H).
    unfold SLIST_FIRST in Hw.
    apply bind_inv in Hw as (sm & os3 & Hl & Hw).
    apply load_sem_inv in Hl as [-> Hs]. injection Hw as <- <-.
    apply bind_inv in H as (rc & os2 & Hrel & H).
    rewrite (token_count_lookup _ _ _ Hs) in *.
    apply os_sem_release_inv in Hrel as (_ & _ & _ & sm' & Hs' & Hrel).
    simplify_eq.
    destruct (sem_head sm) as [r|].
    + destruct Hrel as [[h Hs2] Hrel].
      apply bind_inv in H as (rcw & os3 & Hwk & H). injection H as <- <-.
      apply os_sem_pend_wakeup_inv in Hwk as (Hsems & _ & _ & _ & ctk & Hc & Hwk).
      assert (token_count os3 s = sem_tokens sm) as ->.
      { unfold token_count. by rewrite Hsems, Hs2. }
      assert (rcw = OS_OK) as ->.
      { destruct Hwk as [(Hflag & _)|(_ & ? & _)]; [|done]. exfalso.
        apply Hflag. specialize (Hrel r). simpl in Hrel. rewrite Hc in Hrel.
        destruct (os_tasks osw !! r); [|done]. destruct Hrel as [_ ->].
        rewrite decide_True by done.
        rewrite <- Z.land_assoc, (Z.land_comm (Z.lnot mask)), Z.land_lnot_diag.
        apply Z.land_0_r. }
      simpl. unfold to_uint16.
      replace (sem_tokens sm + 1 - 1) with (sem_tokens sm) by lia.
      rewrite Z.mod_small by lia. lia.
    + destruct Hrel as [_ Hs2]. injection H as <- <-. simpl.
      rewrite (token_count_lookup _ _ _ Hs2). simpl.
      replace (sem_tokens sm + 1 - 0) with (sem_tokens sm + 1) by lia.
      split; [apply to_uint16_range|]. split_and!; try tauto.
      unfold to_uint16. pose proof (Z.mod_le (sem_tokens sm + 1) 65536). lia.
Qed.

Lemma sem_step_releases mask fuel s c os n os' :
  sem_step mask fuel s c os = Some (n, os') → n.1 = releases [c].
Proof.
  intros H. destruct c as [t timeout|t]; simpl in H.
  - apply bind_inv in H as (u & osw & _ & H).
    apply bind_inv in H as (out & os2 & _ & H).
    destruct out as [[]|]; by injection H as <- _.
  - apply bind_inv in H as (u & osw & _ & H).
    apply bind_inv in H as (waiter & os2 & _ & H).
    apply bind_inv in H as (rc & os3 & _ & H).
    destruct waiter; [|by injection H as <- _].
    apply bind_inv in H as (rcw & os4 & _ & H). by injection H as <- _.
Qed.

Lemma sem_run_cons mask fuel s c cs os n os' :
  sem_run mask fuel s (c :: cs) os = Some (n, os') →
  ∃ n1 os1 n2,
    sem_step mask fuel s c os = Some (n1, os1) ∧
    sem_run mask fuel s cs os1 = Some (n2, os') ∧
    n = (n1.1 + n2.1, n1.2 + n2.2).
Proof.
  intros H. change (sem_run mask fuel s (c :: cs)) with
    (do n <- sem_step mask fuel s c ;
     do m <- sem_run mask fuel s cs ;
     ret (n.1 + m.1, n.2 + m.2))%os in H.
  apply bind_inv in H as (n1 & os1 & H1 & H).
  apply bind_inv in H as (n2 & os2 & H2 & H). injection H as <- <-.
  by exists n1, os1, n2.
Qed.

Lemma sem_run_tokens mask fuel s cs os n os' :
  sem_run mask fuel s cs os = Some (n, os') →
  tokens_ok os s →
  tokens_ok os' s ∧
  n.1 = releases cs ∧ 0 ≤ n.2 ∧
  token_count os' s = to_uint16 (token_count os s + n.1 - n.2) ∧
  token_count os' s ≤ token_count os s + n.1 - n.2.
Proof.
  revert os n. induction cs as [|c cs IH]; intros os n H Hok.
  - injection H as <- <-. unfold tokens_ok in *. simpl. unfold to_uint16.
    replace (token_count os s + 0 - 0) with (token_count os s) by lia.
    rewrite Z.mod_small by lia. lia.
  - apply sem_run_cons in H as (n1 & os1 & n2 & H1 & H2 & ->).
    pose proof (sem_step_releases _ _ _ _ _ _ _ H1) as Hr1.
    apply sem_step_tokens in H1 as (Hok1 & _ & Hn12 & Ht1 & Hle1); [|done].
    apply IH in H2 as (Hok' & Hr2 & Hn22 & Ht' & Hle'); [|done].
    simpl. split_and!; try done.
    + rewrite Hr1, Hr2. simpl. destruct c; lia.
    + lia.
    + rewrite Ht', Ht1. unfold to_uint16.
      replace (token_count os s + (n1.1 + n2.1) - (n1.2 + n2.2))
        with ((token_count os s + n1.1 - n1.2) + (n2.1 - n2.2)) by lia.
      rewrite <- (Zplus_mod_idemp_l (token_count os s + n1.1 - n1.2)).
      f_equal. lia.
    + lia.
Qed.

Lemma sem_run_app mask fuel s cs1 cs2 os n os' :
  sem_run mask fuel s (cs1 ++ cs2) os = Some (n, os') →
  ∃ n1 os1, sem_run mask fuel s cs1 os = Some (n1, os1).
Proof.
  revert os n. induction cs1 as [|c cs1 IH]; intros os n H; [by eexists _, _|].
  apply sem_run_cons in H as (n1 & os1 & n2 & H1 & H2 & ->).
  apply IH in H2 as (n3 & os3 & H3).
  exists (n1.1 + n3.1, n1.2 + n3.2), os3.
  change (sem_run mask fuel s (c :: cs1)) with
    (do n <- sem_step mask fuel s c ;
     do m <- sem_run mask fuel s cs1 ;
     ret (n.1 + m.1, n.2 + m.2))%os.
  unfold bind. by rewrite H1, H3.
Qed.


(** ** The examples *)

Ltac solve_notin :=
  let Hin := fresh in
  intros Hin;
  repeat (apply elem_of_cons in Hin as [Hin|Hin]; [discriminate Hin|]);
  by apply elem_of_nil in Hin.

Ltac solve_wait_queue :=
  eexists; split; [vm_compute; reflexivity|]; simpl;
  repeat (split; [reflexivity|]; split; [solve_notin|];
          eexists; split; [vm_compute; reflexivity|]; simpl);
  reflexivity.

(** [demo_waiting] is what three calls of [os_sem_pend] make of [demo_os]. *)
Lemma demo_waiting_reached :
  (do _ <- pend_each 2 3 0 [(1%nat, 100); (2%nat, 100); (3%nat, 100)] ;
   os_sched_switch_to 9)%os demo_os = Some (tt, demo_waiting).
Proof. vm_compute. reflexivity. Qed.

Lemma demo_waiting_queue : wait_queue demo_waiting 0 [2; 3; 1]%nat.
Proof. solve_wait_queue. Qed.

Lemma demo_os_queue : wait_queue demo_os 0 [].
Proof. solve_wait_queue. Qed.

(** C4 at [demo_waiting]: task 9 releases, task 2 is woken and, its priority
    value 1 being below 7, a reschedule is asked for. *)
Lemma os_sem_release_spec_witness :
  wait_queue demo_waiting 0 [2; 3; 1]%nat ∧
  ∃ os',
    os_sem_release 2 (Some 0%nat) demo_waiting = Some (OS_OK, os') ∧
    wait_queue os' 0 [3; 1]%nat ∧
    token_count os' 0 = 0 ∧
    os_sched_calls os' = [CallWakeup 2; CallSched 2].
Proof.
  split; [solve_wait_queue|].
  destruct (os_sem_release_spec 2 demo_waiting 0 [2; 3; 1]%nat)
    as (os' & Hrun & Hq & _ & _ & _ & _ & Htok & _ & Hcalls).
  - solve_wait_queue.
  - intros _. by eexists.
  - exists os'. split_and!; done.
Defined.

(** C4 as stated fails on a full counter: one more [os_sem_release] leaves 0
    tokens, not 65536. *)
Lemma os_sem_release_wraps :
  wait_queue demo_full 0 [] ∧
  token_count demo_full 0 = 65535 ∧
  ∃ os',
    os_sem_release 2 (Some 0%nat) demo_full = Some (OS_OK, os') ∧
    token_count os' 0 = 0 ∧
    token_count os' 0 ≠ token_count demo_full 0 + 1.
Proof.
  split; [solve_wait_queue|]. split; [reflexivity|].
  eexists. split; [vm_compute; reflexivity|]. by vm_compute.
Qed.

(** C6 at [demo_token]: the token is taken at once, whatever the timeout. *)
Lemma os_sem_pend_no_wait_witness :
  os_sems demo_token !! 0%nat = Some (OsSem None 1) ∧
  ∃ os',
    os_sem_pend 2 os_sched_sleep_expire 0 (Some 0%nat) 5 demo_token =
      Some (OS_OK, os') ∧
    token_count os' 0 = 0.
Proof.
  split; [reflexivity|].
  destruct (os_sem_pend_no_wait 2 os_sched_sleep_expire 0 demo_token 0
              (OsSem None 1) 5) as [H _]; [reflexivity|simpl; lia|].
  destruct H as (os' & Hrun & _ & Htok & _); [simpl; lia|].
  exists os'. split; [done|]. rewrite Htok. reflexivity.
Defined.

(** C1 at [demo_waiting]: the three waiters are taken off and woken, and
    each still carries its wait flag. *)
Lemma os_sem_delete_spec_witness :
  wait_queue demo_waiting 0 [2; 3; 1]%nat ∧
  ∃ os',
    os_sem_delete 3 (Some 0%nat) demo_waiting = Some (OS_OK, os') ∧
    wait_queue os' 0 [] ∧
    task_flags os' 1 = 2 ∧
    ∃ os'', os_sem_pend_wakeup 2 1 os' = Some (OS_TIMEOUT, os'').
Proof.
  split; [solve_wait_queue|].
  destruct (os_sem_delete_spec 2 3 demo_waiting 0 [2; 3; 1]%nat)
    as (os' & Hrun & _ & Hq & Hl & _ & _ & Hwk).
  - solve_wait_queue.
  - simpl. lia.
  - by eexists.
  - constructor.
  - exists os'. split_and!; try done.
    + destruct (Hl 1%nat) as (-> & _); [|reflexivity].
      apply elem_of_cons. right. apply elem_of_cons. right.
      apply elem_of_cons. by left.
    + destruct (Hwk 1%nat) as (os'' & Hrun'' & _); [|by vm_compute|by eexists].
      apply elem_of_cons. right. apply elem_of_cons. right.
      apply elem_of_cons. by left.
Defined.

(** C1 as stated fails: [os_sem_delete] does not clear the wait flag of the
    tasks it takes off the list.  Task 1 sleeps in [os_sem_pend], task 9
    deletes the semaphore, and bit [OS_TASK_FLAG_SEM_WAIT = 2] of task 1 is
    still set.  This is why the whole call of [os_sem_pend] by task 1,
    asleep while task 9 deletes the semaphore, returns [OS_TIMEOUT]. *)
Lemma os_sem_delete_keeps_wait_flag :
  ∃ os1 os2 os3,
    (do _ <- os_sched_switch_to 1 ;
     do _ <- os_sem_pend_enter 2 1 0 100 ;
     os_sched_switch_to 9)%os demo_os = Some (tt, os1) ∧
    wait_queue os1 0 [1%nat] ∧
    os_sem_delete 1 (Some 0%nat) os1 = Some (OS_OK, os2) ∧
    wait_queue os2 0 [] ∧
    Z.land (task_flags os2 1) 2 = 2 ∧
    Z.land (task_flags os2 1) 2 ≠ 0 ∧
    (do _ <- os_sched_switch_to 1 ;
     os_sem_pend 2 (os_sched_sleep_while 9 (os_sem_delete 1 (Some 0%nat)))
       1 (Some 0%nat) 100)%os demo_os = Some (OS_TIMEOUT, os3).
Proof.
  eexists _, _, _. split; [vm_compute; reflexivity|].
  split; [solve_wait_queue|].
  split; [vm_compute; reflexivity|].
  split; [solve_wait_queue|].
  split; [by vm_compute|].
  split; [by vm_compute|].
  vm_compute. reflexivity.
Qed.

(** A whole call of [os_sem_pend] by task 1, asleep while task 9 releases
    the semaphore: it returns [OS_OK], the list is empty again, no token is
    left. *)
Lemma os_sem_pend_served :
  ∃ os',
    (do _ <- os_sched_switch_to 1 ;
     os_sem_pend 2 (os_sched_sleep_while 9 (os_sem_release 2 (Some 0%nat)))
       1 (Some 0%nat) 100)%os demo_os = Some (OS_OK, os') ∧
    wait_queue os' 0 [] ∧
    token_count os' 0 = 0 ∧
    task_flags os' 1 = 0.
Proof.
  eexists. split; [vm_compute; reflexivity|].
  split; [solve_wait_queue|]. by vm_compute.
Qed.

(** C9 at [demo_waiting]: the woken tasks outrank task 9, a reschedule is
    asked for. *)
Lemma os_sem_delete_resched_witness :
  wait_queue demo_waiting 0 [2; 3; 1]%nat ∧
  ∃ os',
    os_sem_delete 3 (Some 0%nat) demo_waiting = Some (OS_OK, os') ∧
    os_sched_calls os' =
      [CallWakeup 2; CallWakeup 3; CallWakeup 1; CallSched 2].
Proof.
  split; [solve_wait_queue|].
  destruct (os_sem_delete_resched 3 demo_waiting 0 [2; 3; 1]%nat)
    as (os' & resched & Hrun & _).
  - solve_wait_queue.
  - simpl. lia.
  - by eexists.
  - constructor.
  - exists os'. split; [done|].
    assert (os_sem_delete 3 (Some 0%nat) demo_waiting =
            Some (OS_OK, os')) as Hrun' by done.
    vm_compute in Hrun'. injection Hrun' as <-. reflexivity.
Defined.



(** X10 at [demo_os]: tasks 1, 2, 3 of priority 5, 1, 3 call in this order;
    the list they form is sorted, and it is the order in which three calls
    of [os_sem_release] by task 9 make them ready. *)
Lemma os_sem_pend_priority_order_witness :
  ∃ os' os'' q,
    pend_each 2 3 0 [(1%nat, 100); (2%nat, 100); (3%nat, 100)] demo_os =
      Some ([PendSleep; PendSleep; PendSleep], os') ∧
    wait_queue os' 0 q ∧
    prio_sorted (task_prio os') q ∧
    q ≡ₚ [1; 2; 3]%nat ∧
    (do _ <- os_sched_switch_to 9 ;
     release_times 2 (length q) 0)%os os' = Some (tt, os'') ∧
    g_os_run_list os'' = q.
Proof.
  destruct os_sem_pend_priority_order as (_ & Hseq & _).
  destruct (Hseq 2 3%nat demo_os 0%nat []
              [(1%nat, 100); (2%nat, 100); (3%nat, 100)] 9%nat)
    as (os' & os'' & q & Hrun & Hq & Hsorted & Hperm & Hfifo & Hrel & Hrl).
  - solve_wait_queue.
  - exact I.
  - reflexivity.
  - simpl. repeat (constructor; [solve_notin|]). constructor.
  - repeat (constructor;
            [split; [solve_notin|split; [by eexists|by simpl]]|]).
    constructor.
  - simpl. lia.
  - by eexists.
  - exists os', os'', q. split_and!; done.
Defined.

(** C2 at [demo_waiting]: the invariant holds there, and after task 9 has
    released the semaphore. *)
Lemma sem_inv_preserved_witness :
  (tokens_ok demo_waiting 0 ∧ sem_inv demo_waiting 0) ∧
  ∃ os',
    os_sem_release 2 (Some 0%nat) demo_waiting = Some (OS_OK, os') ∧
    tokens_ok os' 0 ∧ sem_inv os' 0.
Proof.
  assert (tokens_ok demo_waiting 0 ∧ sem_inv demo_waiting 0) as Hinv.
  { split; [by vm_compute|]. intros Hpos. by vm_compute in Hpos. }
  split; [done|].
  destruct (sem_inv_preserved 2 0%nat) as (_ & _ & _ & _ & Hrel & _).
  destruct (os_sem_release 2 (Some 0%nat) demo_waiting) as [[rc os']|] eqn:Hrun;
    [|by vm_compute in Hrun].
  destruct (Hrel _ _ _ _ Hrun) as [Hkeep _].
  assert (rc = OS_OK) as -> by (vm_compute in Hrun; by injection Hrun as <- _).
  exists os'. split; [done|]. by apply Hkeep.
Defined.

(** C10 at [demo_waiting]: task 9 releases; task 2 loses bit 1 of its flags
    and keeps its priority and its other bits. *)
Lemma os_sem_flags_frame_witness :
  ∃ os',
    os_sem_release 2 (Some 0%nat) demo_waiting = Some (OS_OK, os') ∧
    tasks_frame 2 demo_waiting os'.
Proof.
  destruct (os_sem_flags_frame 2) as (_ & Hrel & _).
  destruct (os_sem_release 2 (Some 0%nat) demo_waiting) as [[rc os']|] eqn:Hrun;
    [|by vm_compute in Hrun].
  assert (rc = OS_OK) as -> by (vm_compute in Hrun; by injection Hrun as <- _).
  exists os'. split; [done|]. by eapply Hrel.
Defined.

(** ** The caller whose wait times out *)

Lemma land_lor_same f m : Z.land (Z.lor f m) m = m.
Proof.
  apply Z.bits_inj'. intros i _. rewrite Z.land_spec, Z.lor_spec.
  by destruct (Z.testbit f i), (Z.testbit m i).
Qed.

(** Writing a descriptor without changing its link leaves the list alone. *)
Lemma is_queue_store_same_link ts p l t tk tk' :
  ts !! t = Some tk → t_sem_list tk' = t_sem_list tk →
  is_queue ts p l → is_queue (<[t := tk']> ts) p l.
Proof.
  intros Ht Hlink. revert p. induction l as [|a l IH]; intros p Hq; [done|].
  destruct Hq as (-> & Hni & tka & Ha & Hq).
  simpl. split_and!; [done..|].
  destruct (decide (a = t)) as [->|Hne].
  - exists tk'. rewrite lookup_insert_eq. split; [done|].
    simplify_eq. rewrite Hlink. by apply IH.
  - exists tka. rewrite lookup_insert_ne by done. split; [done|]. by apply IH.
Qed.

(** When the sleep of a waiting caller ends because its time is up,
    [os_sem_pend] returns [OS_TIMEOUT] and the caller is still on the list
    of the semaphore: nothing takes it off. *)
Lemma os_sem_pend_expire_stays mask fuel os s l timeout :
  wait_queue os s l → token_count os s = 0 → timeout ≠ 0 → mask ≠ 0 →
  is_Some (os_tasks os !! g_current_task os) →
  g_current_task os ∉ l → (length l ≤ fuel)%nat →
  ∃ os',
    os_sem_pend mask os_sched_sleep_expire fuel (Some s) timeout os =
      Some (OS_TIMEOUT, os') ∧
    wait_queue os' s (prio_insert (task_prio os) (g_current_task os) l) ∧
    g_current_task os ∈ prio_insert (task_prio os) (g_current_task os) l.
Proof.
  intros Hq Htok Hto Hmask Hcur Hni Hlen.
  destruct (os_sem_pend_enqueue mask fuel os s l (g_current_task os) timeout)
    as (os1 & Hrun & (sm & Hs1 & Hq1) & _ & _ & Hflag & _ & _ & Hdom & _);
    try done.
  destruct (proj2 (Hdom (g_current_task os)) Hcur) as [ctk Hc1].
  unfold task_flags in Hflag. rewrite Hc1 in Hflag. simpl in Hflag.
  eexists. split_and!.
  - unfold os_sem_pend, os_sched_get_current_task. unfold bind at 1.
    unfold bind at 1. rewrite Hrun. unfold os_sched_sleep_expire.
    unfold bind at 1. unfold ret at 1.
    apply (os_sem_pend_wakeup_timeout _ _ _ ctk); [done|].
    by rewrite Hflag, land_lor_same.
  - exists sm. simpl. split; [done|].
    by apply (is_queue_store_same_link _ _ _ _ ctk).
  - rewrite prio_insert_perm. apply elem_of_cons. by left.
Qed.

(** C5 fails on the code.  Task 1 calls [os_sem_pend] with a timeout of 100
    ticks on the semaphore of [demo_os], which has no token; nobody releases
    and the time is up.  [os_sem_pend] returns [OS_TIMEOUT] with the wait
    flag cleared, and task 1 is still the head of the list.  When task 9
    then releases the semaphore, the token goes to task 1, which is not
    waiting: the counter stays at 0. *)
Theorem os_sem_pend_timeout_leaves_caller_queued :
  ∃ os' os'',
    (do _ <- os_sched_switch_to 1 ;
     os_sem_pend 2 os_sched_sleep_expire 1 (Some 0%nat) 100)%os demo_os =
      Some (OS_TIMEOUT, os') ∧
    wait_queue os' 0 [1%nat] ∧
    Z.land (task_flags os' 1) 2 = 0 ∧
    (do _ <- os_sched_switch_to 9 ;
     os_sem_release 2 (Some 0%nat))%os os' = Some (OS_OK, os'') ∧
    token_count os'' 0 = 0 ∧
    os_sched_calls os'' = [CallWakeup 1; CallSched 1].
Proof.
  eexists _, _. split; [vm_compute; reflexivity|].
  split; [solve_wait_queue|].
  split; [by vm_compute|].
  split; [vm_compute; reflexivity|].
  split; by vm_compute.
Qed.

(** C3 fails on the code, by the defect shown for C5.  On the semaphore of
    [demo_os], task 1 (priority 5) pends and sleeps; task 2 (priority 1)
    pends, its time is up and it returns [OS_TIMEOUT], still at the head of
    the list 2, 1; task 2 pends again.  The walk stops at task 2 itself and
    [SLIST_INSERT_AFTER] links it behind itself: what hangs on the
    semaphore is no list any more, and task 1 is cut off.  Three calls of
    [os_sem_release] by task 9 wake task 2 twice and bank a token, while
    task 1 still carries its wait flag and is never served. *)
Theorem os_sem_pend_again_breaks_order :
  ∃ osA osB osC,
    (do _ <- os_sched_switch_to 1 ;
     do _ <- os_sem_pend_enter 2 2 0 100 ;
     do _ <- os_sched_switch_to 2 ;
     os_sem_pend 2 os_sched_sleep_expire 2 (Some 0%nat) 100)%os demo_os =
      Some (OS_TIMEOUT, osA) ∧
    wait_queue osA 0 [2; 1]%nat ∧
    prio_sorted (task_prio osA) [2; 1]%nat ∧
    os_sem_pend_enter 2 2 0 100 osA = Some (PendSleep, osB) ∧
    task_link osB 2 = Some 2%nat ∧
    (∀ l, ¬ wait_queue osB 0 l) ∧
    (do _ <- os_sched_switch_to 9 ;
     release_times 2 3 0)%os osB = Some (tt, osC) ∧
    g_os_run_list osC = [2; 2]%nat ∧
    token_count osC 0 = 1 ∧
    Z.land (task_flags osC 1) 2 = 2.
Proof.
  eexists _, _, _. split; [vm_compute; reflexivity|].
  split; [solve_wait_queue|].
  split; [simpl; split_and!; repeat constructor; by vm_compute|].
  split; [vm_compute; reflexivity|].
  split; [by vm_compute|].
  split.
  { intros l (sm & Hs & Hq). vm_compute in Hs. injection Hs as <-.
    destruct l as [|a l]; [done|]. destruct Hq as ([= <-] & Hni & tk & Ht & Hq).
    vm_compute in Ht. injection Ht as <-.
    destruct l as [|b l]; [done|]. destruct Hq as ([= <-] & _).
    apply Hni. apply elem_of_cons. by left. }
  split; [vm_compute; reflexivity|].
  split_and!; by vm_compute.
Qed.

(** * Further properties of [os_sem.c] *)

(** ** Null pointers and result codes *)

(** X1: [os_sem_release], [os_sem_pend] and [os_sem_delete] called with a
    [NULL] semaphore return [OS_INVALID_PARM] and leave the kernel as it is,
    without a call into the scheduler; called with a semaphore, a call that
    returns never gives [OS_INVALID_PARM]: release and delete give [OS_OK],
    pend gives [OS_OK] or [OS_TIMEOUT]. *)
Theorem os_sem_result_codes (mask : Z) (sleep : nat → Z → M unit) (fuel : nat) :
  (∀ os timeout,
     os_sem_release mask None os = Some (OS_INVALID_PARM, os) ∧
     os_sem_pend mask sleep fuel None timeout os = Some (OS_INVALID_PARM, os) ∧
     os_sem_delete fuel None os = Some (OS_INVALID_PARM, os)) ∧
  (∀ s os rc os',
     os_sem_release mask (Some s) os = Some (rc, os') → rc = OS_OK) ∧
  (∀ s timeout os rc os',
     os_sem_pend mask sleep fuel (Some s) timeout os = Some (rc, os') →
     rc = OS_OK ∨ rc = OS_TIMEOUT) ∧
  (∀ s os rc os',
     os_sem_delete fuel (Some s) os = Some (rc, os') → rc = OS_OK).
Proof.
  split_and!.
  - done.
  - intros s os rc os' H. by apply os_sem_release_inv in H as (-> & _).
  - intros s timeout os rc os' H. unfold os_sem_pend in H.
    apply bind_inv in H as (cur & os1 & [= <- <-] & H).
    apply bind_inv in H as (out & os2 & Hcs & H).
    apply os_sem_pend_critical_inv in Hcs as (sm & _ & _ & _ & _ & _ & Hcs).
    destruct Hcs as [(_ & -> & _)|[(_ & _ & -> & _)|(_ & _ & -> & _)]].
    + injection H as <- _. by left.
    + injection H as <- _. by right.
    + apply bind_inv in H as (u & os3 & _ & H).
      apply os_sem_pend_wakeup_inv in H as (_ & _ & _ & _ & ctk & _ & H).
      destruct H as [(_ & -> & _)|(_ & -> & _)]; [by right|by left].
  - intros s os rc os' H. by apply os_sem_delete_inv in H as (-> & _).
Qed.

(** ** The wait flag when [os_sem_pend] returns *)

(** X2: whatever happens while the caller sleeps, a call of [os_sem_pend]
    that had to wait and returns leaves the caller's wait flag clear; it
    returns [OS_OK] exactly when the flag was already clear when the sleep
    ended, and in that case it changes nothing after the sleep. *)
Theorem os_sem_pend_flag_on_return (mask : Z) (sleep : nat → Z → M unit)
    (fuel : nat) (s : nat) (timeout : Z) (os : os_state) (rc : os_error_t)
    (os' : os_state) :
  os_sem_pend mask sleep fuel (Some s) timeout os = Some (rc, os') →
  token_count os s = 0 → timeout ≠ 0 →
  Z.land (task_flags os' (g_current_task os)) mask = 0 ∧
  ∃ os1 os2,
    os_sem_pend_critical mask fuel s (g_current_task os) timeout os =
      Some (PendSleep, os1) ∧
    sleep (g_current_task os) timeout os1 = Some (tt, os2) ∧
    (rc = OS_OK ↔ Z.land (task_flags os2 (g_current_task os)) mask = 0) ∧
    (rc = OS_OK → os' = os2).
Proof.
  intros H Htok Hto. unfold os_sem_pend in H.
  apply bind_inv in H as (cur & os0 & [= <- <-] & H).
  apply bind_inv in H as (out & os1 & Hcs & H).
  pose proof Hcs as Hcs'.
  apply os_sem_pend_critical_inv in Hcs' as (sm & Hs & _ & _ & _ & _ & Hcs').
  rewrite (token_count_lookup _ _ _ Hs) in Htok.
  destruct Hcs' as [(? & _)|[(_ & ? & _)|(_ & _ & -> & _)]]; try done.
  apply bind_inv in H as ([] & os2 & Hsl & H).
  apply os_sem_pend_wakeup_inv in H as (_ & _ & _ & _ & ctk & Hc & H).
  assert (task_flags os2 (g_current_task os) = t_flags ctk) as Hfl.
  { unfold task_flags. by rewrite Hc. }
  destruct H as [(Hset & -> & Hts)|(Hclear & -> & ->)].
  - split.
    + unfold task_flags. rewrite Hts, lookup_insert_eq. simpl.
      rewrite <- Z.land_assoc, (Z.land_comm (Z.lnot mask)), Z.land_lnot_diag.
      apply Z.land_0_r.
    + exists os1, os2. rewrite Hfl. split_and!; try done.
  - split; [by rewrite Hfl|].
    exists os1, os2. rewrite Hfl. split_and!; done.
Qed.

(** ** How the operations compose on a semaphore nobody waits for *)

Lemma with_sems_restore os s sm :
  os_sems os !! s = Some sm →
  with_sems (<[s := sm]>) os = os.
Proof.
  intros Hs. destruct os as [ts ss cur rl calls]. unfold with_sems. simpl in *.
  by rewrite insert_id.
Qed.

(** X3: on a semaphore without waiters, [os_sem_release] followed by
    [os_sem_pend] gives the kernel state back as it was, the second call
    returning [OS_OK] whatever its timeout, provided the counter was below
    65535; and [os_sem_pend] followed by [os_sem_release] does the same,
    provided the counter was not zero.  Neither pair calls the scheduler
    for a wake or a reschedule. *)
Theorem os_sem_release_pend_round_trip (mask : Z) (sleep : nat → Z → M unit)
    (fuel : nat) (os : os_state) (s : nat) (n : Z) (timeout : Z) :
  os_sems os !! s = Some (OsSem None n) →
  0 ≤ n < 65536 →
  (n < 65535 →
   (do _ <- os_sem_release mask (Some s) ;
    os_sem_pend mask sleep fuel (Some s) timeout)%os os = Some (OS_OK, os)) ∧
  (0 < n →
   (do _ <- os_sem_pend mask sleep fuel (Some s) timeout ;
    os_sem_release mask (Some s))%os os = Some (OS_OK, os)).
Proof.
  intros Hs Hrange. split.
  - intros Hn. unfold bind at 1.
    rewrite (os_sem_release_bank mask os s _ Hs) by done. simpl sem_tokens.
    unfold to_uint16. rewrite Z.mod_small by lia.
    unfold os_sem_pend, os_sched_get_current_task. unfold bind at 1.
    unfold bind at 1.
    erewrite os_sem_pend_take; [|simpl; apply lookup_insert_eq|simpl; lia].
    simpl. unfold with_sems. simpl. rewrite insert_insert_eq.
    replace (n + 1 - 1) with n by lia. unfold to_uint16.
    rewrite Z.mod_small by lia. unfold ret. do 2 f_equal.
    by apply (with_sems_restore os s (OsSem None n)).
  - intros Hn. unfold bind at 1.
    unfold os_sem_pend, os_sched_get_current_task. unfold bind at 1.
    unfold bind at 1.
    rewrite (os_sem_pend_take mask fuel os s _ _ timeout Hs) by (simpl; lia).
    simpl sem_tokens. simpl sem_head. unfold to_uint16.
    rewrite Z.mod_small by lia. unfold ret at 1.
    erewrite os_sem_release_bank; [|simpl; apply lookup_insert_eq|done].
    simpl. unfold with_sems. simpl. rewrite insert_insert_eq.
    replace (n - 1 + 1) with n by lia. unfold to_uint16.
    rewrite Z.mod_small by lia. do 2 f_equal.
    by apply (with_sems_restore os s (OsSem None n)).
Qed.

(** X4: [os_sem_delete] leaves the semaphore as [os_sem_create] with zero
    tokens would make it: calling [os_sem_create(sem, 0)] right after
    changes nothing.  The semaphore is not marked in any way: a later
    [os_sem_release] banks a token, which a later [os_sem_pend] takes. *)
Theorem os_sem_delete_leaves_fresh (mask : Z) (sleep : nat → Z → M unit)
    (fuel : nat) (os : os_state) (s : nat) (l : list nat) (timeout : Z) :
  wait_queue os s l →
  (length l ≤ fuel)%nat →
  is_Some (os_tasks os !! g_current_task os) →
  Forall (λ t, is_Some (os_tasks os !! t)) (g_os_run_list os) →
  ∃ os',
    os_sem_delete fuel (Some s) os = Some (OS_OK, os') ∧
    os_sem_create (Some s) 0 os' = Some (OS_OK, os') ∧
    ∃ os'',
      os_sem_release mask (Some s) os' = Some (OS_OK, os'') ∧
      token_count os'' s = 1 ∧
      os_sem_pend mask sleep fuel (Some s) timeout os'' = Some (OS_OK, os').
Proof.
  intros Hq Hlen Hcur Hrl.
  eexists. split; [by apply os_sem_delete_run|].
  match goal with |- context [os_sem_create _ _ ?o] => set (os' := o) end.
  assert (os_sems os' !! s = Some (OsSem None 0)) as Hs' by apply lookup_insert_eq.
  split.
  { rewrite os_sem_create_run. do 2 f_equal. by apply with_sems_restore. }
  eexists. split; [by apply (os_sem_release_bank mask os' s _ Hs')|].
  split; [unfold token_count; simpl; by rewrite lookup_insert_eq|].
  unfold os_sem_pend, os_sched_get_current_task. unfold bind at 1.
  unfold bind at 1.
  erewrite os_sem_pend_take; [|simpl; apply lookup_insert_eq|by simpl].
  simpl. unfold ret. do 2 f_equal. unfold with_sems. simpl.
  rewrite insert_insert_eq. change (to_uint16 (to_uint16 (0 + 1) - 1)) with 0.
  by apply (with_sems_restore os' s (OsSem None 0)).
Qed.

(** ** A waiter served while it sleeps *)

(** X5: no wake-up is lost.  A caller of [os_sem_pend] that finds no token
    and goes to the head of the list (the list is empty, or its first entry
    has a strictly greater priority value) and that sleeps while another
    task calls [os_sem_release] once returns [OS_OK]: the token has gone to
    it, the counter is still zero, the list is what it was before the call,
    the caller's wait flag is clear, and the scheduler has been asked to
    wake the caller, and to reschedule exactly when the caller's priority
    value is strictly below the releasing task's. *)
Theorem os_sem_pend_handoff (mask : Z) (fuel : nat) (os : os_state) (s : nat)
    (l : list nat) (other : nat) (timeout : Z) :
  wait_queue os s l → token_count os s = 0 → timeout ≠ 0 →
  is_Some (os_tasks os !! g_current_task os) →
  g_current_task os ∉ l → (length l ≤ fuel)%nat →
  is_Some (os_tasks os !! other) →
  match l with
  | [] => True
  | e :: _ => task_prio os (g_current_task os) < task_prio os e
  end →
  ∃ os',
    os_sem_pend mask (os_sched_sleep_while other (os_sem_release mask (Some s)))
      fuel (Some s) timeout os = Some (OS_OK, os') ∧
    wait_queue os' s l ∧
    token_count os' s = 0 ∧
    task_flags os' (g_current_task os) =
      Z.land (Z.lor (task_flags os (g_current_task os)) mask) (Z.lnot mask) ∧
    task_link os' (g_current_task os) = None ∧
    g_current_task os' = g_current_task os ∧
    os_sched_calls os' =
      os_sched_calls os ++ CallWakeup (g_current_task os) ::
        (if task_prio os (g_current_task os) <? task_prio os other
         then [CallSched (g_current_task os)] else []).
Proof.
  intros Hq Htok Hto Hcur Hni Hlen Hother Hhead.
  set (cur := g_current_task os) in *.
  destruct (os_sem_pend_enqueue mask fuel os s l cur timeout)
    as (os1 & Hrun & Hq1 & Htok1 & _ & Hflag & _ & Hprio & Hdom & Hcur1 & Hrl1 & Hcalls1);
    try done.
  assert (prio_insert (task_prio os) cur l = cur :: l) as Hins.
  { destruct l as [|e l']; [done|]. simpl.
    by destruct (Z.ltb_spec (task_prio os cur) (task_prio os e)); [|lia]. }
  rewrite Hins in Hq1.
  destruct Hq1 as (sm1 & Hs1 & Hh1 & _ & tk1 & Hc1 & Hq1).
  destruct (proj2 (Hdom other) Hother) as [otk Ho1].
  set (osA := OsState (os_tasks os1) (os_sems os1) other (g_os_run_list os1)
                      (os_sched_calls os1)).
  pose proof (os_sem_release_wake mask osA s sm1 cur tk1 otk Hs1 Hh1 Hc1 Ho1)
    as Hrel.
  match type of Hrel with _ = Some (_, ?o) => set (osB := o) in * end.
  set (osC := OsState (os_tasks osB) (os_sems osB) cur (g_os_run_list osB)
                      (os_sched_calls osB)).
  assert (task_flags os1 cur = t_flags tk1) as Hfl1.
  { unfold task_flags. by rewrite Hc1. }
  assert (task_prio os cur = t_prio tk1) as Hp1.
  { rewrite <- Hprio. unfold task_prio. by rewrite Hc1. }
  assert (task_prio os other = t_prio otk) as Hpo.
  { rewrite <- Hprio. unfold task_prio. by rewrite Ho1. }
  assert (os_sem_pend_wakeup mask cur osC = Some (OS_OK, osC)) as Hwk.
  { eapply os_sem_pend_wakeup_ok; [simpl; apply lookup_insert_eq|]. simpl.
    rewrite <- Z.land_assoc, (Z.land_comm (Z.lnot mask)), Z.land_lnot_diag.
    apply Z.land_0_r. }
  exists osC. split_and!.
  - unfold os_sem_pend, os_sched_get_current_task. unfold bind at 1.
    unfold bind at 1. fold cur. rewrite Hrun.
    unfold os_sched_sleep_while, os_sched_switch_to.
    unfold bind at 1. unfold bind at 1. unfold bind at 1. fold osA.
    rewrite Hrel. exact Hwk.
  - exists (OsSem (t_sem_list tk1) (sem_tokens sm1)). split.
    + simpl. apply lookup_insert_eq.
    + simpl. by apply is_queue_store.
  - unfold token_count in *. simpl. rewrite lookup_insert_eq. simpl.
    by rewrite Hs1 in Htok1.
  - unfold task_flags at 1. simpl. rewrite lookup_insert_eq. simpl.
    by rewrite <- Hfl1, Hflag.
  - unfold task_link. simpl. by rewrite lookup_insert_eq.
  - done.
  - simpl. by rewrite Hcalls1, Hp1, Hpo.
Qed.

(** ** The state of a semaphore between calls *)

Lemma prio_sorted_tail prio a l : prio_sorted prio (a :: l) → prio_sorted prio l.
Proof. by intros [_ ?]. Qed.

(** Changing only the counter of the semaphore keeps its list. *)
Lemma sem_wf_set_tokens mask os s l sm n :
  os_sems os !! s = Some sm →
  wait_queue os s l → prio_sorted (task_prio os) l →
  Forall (waiter_flagged mask os) l →
  0 ≤ n < 65536 → (0 < n → sem_head sm = None) →
  sem_wf mask (with_sems (<[s := OsSem (sem_head sm) n]>) os) s l.
Proof.
  intros Hs (sm' & Hs' & Hq) Hsorted Hflag Hn Hinv.
  assert (sm' = sm) as -> by congruence.
  assert (os_sems (with_sems (<[s := OsSem (sem_head sm) n]>) os) !! s =
          Some (OsSem (sem_head sm) n)) as Hnew by apply lookup_insert_eq.
  split_and!; try done.
  - by exists (OsSem (sem_head sm) n).
  - unfold tokens_ok. by rewrite (token_count_lookup _ _ _ Hnew).
  - unfold sem_inv. rewrite (token_count_lookup _ _ _ Hnew). simpl.
    intros Hpos. eapply wait_queue_nil; [done|]. simpl. by apply Hinv.
Qed.

(** X6: the state of a semaphore between calls.  Its waiters form a list
    without repetition, sorted by ascending priority value, every waiter
    carries the wait flag, and the counter is in its range and positive only
    when nobody waits.  [os_sem_create] sets this up; a call of
    [os_sem_pend] by a task that is not already waiting, of
    [os_sem_release] and of [os_sem_delete] returns (the walks over the
    list end within as many steps as there are waiters) and keeps it, and
    so does the return from [os_sem_pend] of a task that is no longer on
    the list. *)
Theorem sem_wf_kept (mask : Z) (s : nat) :
  (∀ tokens os,
     0 ≤ tokens < 65536 →
     ∃ os', os_sem_create (Some s) tokens os = Some (OS_OK, os') ∧
            sem_wf mask os' s []) ∧
  (∀ fuel os l cur timeout,
     sem_wf mask os s l →
     is_Some (os_tasks os !! cur) → cur ∉ l → (length l ≤ fuel)%nat →
     ∃ out os' l',
       os_sem_pend_critical mask fuel s cur timeout os = Some (out, os') ∧
       sem_wf mask os' s l' ∧
       match out with
       | PendSleep => l' = prio_insert (task_prio os) cur l
       | PendReturn _ => l' = l
       end) ∧
  (∀ os l,
     sem_wf mask os s l →
     is_Some (os_tasks os !! g_current_task os) →
     ∃ os', os_sem_release mask (Some s) os = Some (OS_OK, os') ∧
            sem_wf mask os' s (tail l)) ∧
  (∀ fuel os l,
     sem_wf mask os s l →
     (length l ≤ fuel)%nat →
     is_Some (os_tasks os !! g_current_task os) →
     Forall (λ t, is_Some (os_tasks os !! t)) (g_os_run_list os) →
     ∃ os', os_sem_delete fuel (Some s) os = Some (OS_OK, os') ∧
            sem_wf mask os' s []) ∧
  (∀ os l cur rc os',
     sem_wf mask os s l → cur ∉ l →
     os_sem_pend_wakeup mask cur os = Some (rc, os') →
     sem_wf mask os' s l).
Proof.
  split_and!.
  - intros tokens os Hrange. eexists. split; [apply os_sem_create_run|].
    assert (os_sems (with_sems (<[s := OsSem None tokens]>) os) !! s =
            Some (OsSem None tokens)) as Hs by apply lookup_insert_eq.
    split_and!; try done.
    + by eapply wait_queue_nil.
    + unfold tokens_ok. by rewrite (token_count_lookup _ _ _ Hs).
    + intros _. by eapply wait_queue_nil.
  - intros fuel os l cur timeout (Hq & Hsorted & Hflag & Hok & Hinv) Hcur Hni Hlen.
    pose proof Hq as (sm & Hs & Hql).
    unfold tokens_ok, sem_inv in *. rewrite (token_count_lookup _ _ _ Hs) in *.
    destruct (decide (sem_tokens sm = 0)) as [Hz|Hnz].
    + destruct (decide (timeout = 0)) as [->|Hto].
      * exists (PendReturn OS_TIMEOUT), os, l.
        split; [by eapply os_sem_pend_poll|]. split; [|done].
        split_and!; try done.
        -- unfold tokens_ok. by rewrite (token_count_lookup _ _ _ Hs).
        -- unfold sem_inv. by rewrite (token_count_lookup _ _ _ Hs).
      * destruct (os_sem_pend_enqueue mask fuel os s l cur timeout)
          as (os' & Hrun & Hq' & Htok' & _ & Hfc & Hfo & Hprio & _); try done.
        { by rewrite (token_count_lookup _ _ _ Hs). }
        exists PendSleep, os', (prio_insert (task_prio os) cur l).
        split; [done|]. split; [|done]. split_and!; try done.
        -- apply (prio_sorted_ext (task_prio os)); [done|].
           by apply prio_insert_sorted.
        -- rewrite prio_insert_perm. constructor.
           ++ unfold waiter_flagged. rewrite Hfc. apply land_lor_same.
           ++ apply Forall_forall. intros t Hin.
              unfold waiter_flagged. rewrite Hfo by (by intros ->).
              by eapply (proj1 (Forall_forall _ _) Hflag).
        -- unfold tokens_ok. rewrite Htok'. lia.
        -- unfold sem_inv. rewrite Htok'. lia.
    + exists (PendReturn OS_OK),
        (with_sems (<[s := OsSem (sem_head sm) (to_uint16 (sem_tokens sm - 1))]>) os), l.
      split; [by apply os_sem_pend_take|]. split; [|done].
      apply sem_wf_set_tokens; try done.
      * apply to_uint16_range.
      * intros _. apply (wait_queue_nil_inv os s sm); [|done]. apply Hinv. lia.
  - intros os l (Hq & Hsorted & Hflag & Hok & Hinv) Hcur.
    pose proof Hq as (sm & Hs & Hql).
    unfold tokens_ok, sem_inv in *. rewrite (token_count_lookup _ _ _ Hs) in *.
    destruct l as [|r l'].
    + simpl in Hql. eexists. split; [by apply os_sem_release_bank|]. simpl.
      rewrite <- Hql at 1. apply sem_wf_set_tokens; try done.
      apply to_uint16_range.
    + destruct Hql as (Hh & Hni & tk & Hr & Hql). destruct Hcur as [c Hc].
      eexists. split; [by eapply os_sem_release_wake|]. simpl.
      assert (∀ t, t ≠ r →
                <[r := OsTask (t_prio tk) (Z.land (t_flags tk) (Z.lnot mask)) None]>
                  (os_tasks os) !! t = os_tasks os !! t) as Hother.
      { intros t Hne. by rewrite lookup_insert_ne. }
      split_and!.
      * eexists. simpl. rewrite lookup_insert_eq. split; [done|]. simpl.
        by apply is_queue_store.
      * eapply prio_sorted_ext; [|by eapply prio_sorted_tail].
        intros t. unfold task_prio. simpl. rewrite lookup_insert.
        case_decide; subst; [by rewrite Hr|done].
      * apply Forall_cons in Hflag as [_ Hflag].
        apply Forall_forall. intros t Hin.
        pose proof (proj1 (Forall_forall _ _) Hflag t Hin) as Ht.
        unfold waiter_flagged, task_flags in *. simpl.
        rewrite Hother; [done|]. by intros ->.
      * unfold tokens_ok, token_count. simpl. by rewrite lookup_insert_eq.
      * unfold sem_inv, token_count. simpl. rewrite lookup_insert_eq. simpl.
        intros Hpos. specialize (Hinv Hpos).
        by rewrite (wait_queue_nil_inv os s sm Hinv Hs) in Hh.
  - intros fuel os l (Hq & _) Hlen Hcur Hrl.
    eexists. split; [by apply os_sem_delete_run|].
    match goal with |- sem_wf _ ?o _ _ => set (os' := o) end.
    assert (os_sems os' !! s = Some (OsSem None 0)) as Hs by apply lookup_insert_eq.
    split_and!; try done.
    + by eapply wait_queue_nil.
    + unfold tokens_ok. by rewrite (token_count_lookup _ _ _ Hs).
    + intros _. by eapply wait_queue_nil.
  - intros os l cur rc os' (Hq & Hsorted & Hflag & Hok & Hinv) Hni H.
    apply os_sem_pend_wakeup_inv in H as (Hsems & _ & _ & _ & ctk & Hc & H).
    destruct H as [(_ & _ & Hts)|(_ & _ & ->)]; [|done].
    assert (∀ t, t ≠ cur → os_tasks os' !! t = os_tasks os !! t) as Hother.
    { intros t Hne. by rewrite Hts, lookup_insert_ne. }
    split_and!.
    + destruct Hq as (sm & Hs & Hql). exists sm. rewrite Hsems. split; [done|].
      rewrite Hts. by apply is_queue_store.
    + eapply prio_sorted_ext; [|done]. intros t. unfold task_prio.
      rewrite Hts, lookup_insert. case_decide; subst; [by rewrite Hc|done].
    + apply Forall_forall. intros t Hin.
      pose proof (proj1 (Forall_forall _ _) Hflag t Hin) as Ht.
      unfold waiter_flagged, task_flags in *. rewrite Hother; [done|].
      by intros ->.
    + unfold tokens_ok, token_count in *. by rewrite Hsems.
    + unfold sem_inv, token_count, wait_queue in *. rewrite Hsems.
      intros Hpos. destruct (Hinv Hpos) as (sm & Hs & Hnil). by exists sm.
Qed.

(** ** Two semaphores *)

(** A blocking [os_sem_pend] writes the descriptor of its caller and of one
    waiter at most, and no other; this also when the caller is still on the
    list. *)
Lemma os_sem_pend_enqueue_others mask fuel os s l cur timeout :
  wait_queue os s l → token_count os s = 0 → timeout ≠ 0 →
  is_Some (os_tasks os !! cur) → (length l ≤ fuel)%nat →
  ∃ os',
    os_sem_pend_critical mask fuel s cur timeout os = Some (PendSleep, os') ∧
    ∀ t, t ≠ cur → t ∉ l → os_tasks os' !! t = os_tasks os !! t.
Proof.
  intros (sm & Hs & Hq) Htok Hto [ctk Hc] Hlen.
  unfold token_count in Htok. rewrite Hs in Htok. simpl in Htok.
  set (ctk1 := OsTask (t_prio ctk) (Z.lor (t_flags ctk) mask) (t_sem_list ctk)).
  set (os1 := with_tasks (<[cur := ctk1]>) os).
  assert (is_queue (os_tasks os1) (sem_head sm) l) as Hq1.
  { by apply (is_queue_store_same_link _ _ _ cur ctk ctk1). }
  assert (os_tasks os1 !! cur = Some ctk1) as Hc1.
  { apply lookup_insert_eq. }
  pose proof (os_sem_pend_scan_run fuel l (sem_head sm) None os1 cur ctk1 Hq1 Hc1 Hlen)
    as Hscan.
  assert (∀ t, task_prio os1 t = task_prio os t) as Hprio1.
  { intros t. unfold task_prio, os1. simpl.
    destruct (decide (t = cur)) as [->|Hne].
    - by rewrite lookup_insert_eq, Hc.
    - by rewrite lookup_insert_ne. }
  assert (os_sem_pend_critical mask fuel s cur timeout os =
          (do _ <- (match scan_last (task_prio os1) (t_prio ctk1) l None with
                    | Some e => SLIST_INSERT_AFTER e cur
                    | None => SLIST_INSERT_HEAD s cur
                    end) ; ret PendSleep)%os os1) as ->.
  { unfold os_sem_pend_critical.
    unfold bind at 1, get_sem_tokens, load_sem, bind, ret. rewrite Hs, Htok. simpl.
    destruct (timeout =? 0) eqn:E; [apply Z.eqb_eq in E; done|].
    unfold get_t_flags, set_t_flags, load_task, store_task, bind, ret.
    rewrite Hc. simpl. rewrite Hc. simpl. fold ctk1. fold os1.
    unfold SLIST_EMPTY, SLIST_FIRST, load_sem, bind, ret. simpl. rewrite Hs.
    destruct (sem_head sm) as [h|] eqn:Hh; simpl.
    - rewrite Hs. simpl. rewrite Hh. rewrite Hscan. done.
    - simpl in *. destruct l; [done|]. by destruct Hq. }
  assert (t_prio ctk1 = task_prio os cur) as Hcp.
  { unfold task_prio. by rewrite Hc. }
  rewrite Hcp, (scan_last_ext _ _ _ _ _ Hprio1).
  destruct (scan_last_insert (task_prio os) cur l None)
    as [[-> _]|(e & l1 & l2 & -> & -> & _)].
  - subst os1. munfold. mlookup. eexists. split; [reflexivity|]. simpl.
    intros t Hne Hnl. by rewrite !lookup_insert_ne.
  - assert (e ∈ l1 ++ e :: l2) as Hin.
    { apply elem_of_app. right. apply elem_of_cons. by left. }
    destruct (decide (e = cur)) as [->|Hne_e].
    + subst os1. munfold. mlookup. eexists. split; [reflexivity|]. simpl.
      intros t Hne Hnl. by rewrite !lookup_insert_ne.
    + destruct (is_queue_alloc _ _ _ e Hq1) as [etk He1]; [done|].
      assert (os_tasks os !! e = Some etk) as He.
      { unfold os1 in He1. simpl in He1. by rewrite lookup_insert_ne in He1. }
      subst os1. munfold. mlookup. eexists. split; [reflexivity|]. simpl.
      intros t Hne Hnl.
      assert (t ≠ e) by (by intros ->).
      by rewrite !lookup_insert_ne.
Qed.

Lemma is_queue_agree (ts ts' : gmap nat os_task) p l :
  (∀ t, t ∈ l → ts' !! t = ts !! t) → is_queue ts p l → is_queue ts' p l.
Proof.
  revert p. induction l as [|a l IH]; intros p Hagree Hq; [done|].
  destruct Hq as (-> & Hni & tk & Ha & Hq). simpl. split_and!; [done..|].
  exists tk. split.
  - rewrite Hagree; [done|]. apply elem_of_cons. by left.
  - apply IH; [|done]. intros t Hin. apply Hagree. apply elem_of_cons. by right.
Qed.

Lemma wait_queue_agree os os' s l :
  os_sems os' !! s = os_sems os !! s →
  (∀ t, t ∈ l → os_tasks os' !! t = os_tasks os !! t) →
  wait_queue os s l → wait_queue os' s l.
Proof.
  intros Hs Hts (sm & Hsm & Hq). exists sm. rewrite Hs. split; [done|].
  by eapply is_queue_agree.
Qed.

(** X7: a semaphore is left alone by calls on another one, as long as no
    task is on both lists and the caller of [os_sem_pend] is not on the
    list of the semaphore it does not pend on (it may still be on the list
    of the one it pends on).  Under these conditions a call of
    [os_sem_pend], up to its sleep or its return, of [os_sem_release] or of
    [os_sem_delete] on one semaphore returns and leaves the other as it
    was: the same waiters in the same order and the same number of
    tokens. *)
Theorem os_sem_other_semaphore_kept (mask : Z) (s s2 : nat) (os : os_state)
    (l l2 : list nat) :
  s ≠ s2 →
  wait_queue os s l → wait_queue os s2 l2 →
  (∀ t, t ∈ l → t ∉ l2) →
  (∀ fuel cur timeout,
     is_Some (os_tasks os !! cur) → cur ∉ l2 →
     (length l ≤ fuel)%nat →
     ∃ out os',
       os_sem_pend_critical mask fuel s cur timeout os = Some (out, os') ∧
       wait_queue os' s2 l2 ∧ token_count os' s2 = token_count os s2) ∧
  (is_Some (os_tasks os !! g_current_task os) →
   ∃ os',
     os_sem_release mask (Some s) os = Some (OS_OK, os') ∧
     wait_queue os' s2 l2 ∧ token_count os' s2 = token_count os s2) ∧
  (∀ fuel,
     (length l ≤ fuel)%nat →
     is_Some (os_tasks os !! g_current_task os) →
     Forall (λ t, is_Some (os_tasks os !! t)) (g_os_run_list os) →
     ∃ os',
       os_sem_delete fuel (Some s) os = Some (OS_OK, os') ∧
       wait_queue os' s2 l2 ∧ token_count os' s2 = token_count os s2).
Proof.
  intros Hne Hq Hq2 Hdisj.
  assert (∀ os', os_sems os' !! s2 = os_sems os !! s2 →
                 token_count os' s2 = token_count os s2) as Htok.
  { intros os' E. unfold token_count. by rewrite E. }
  pose proof Hq as (sm & Hs & Hql).
  split_and!.
  - intros fuel cur timeout Hcur Hni2 Hlen.
    destruct (decide (sem_tokens sm = 0)) as [Hz|Hnz].
    + destruct (decide (timeout = 0)) as [->|Hto].
      * exists (PendReturn OS_TIMEOUT), os.
        split; [by eapply os_sem_pend_poll|]. done.
      * destruct (os_sem_pend_enqueue_others mask fuel os s l cur timeout)
          as (os' & Hrun & Hothers); try done.
        { by rewrite (token_count_lookup _ _ _ Hs). }
        pose proof Hrun as Hinv.
        apply os_sem_pend_critical_inv in Hinv as (_ & _ & _ & _ & _ & Hsems & _).
        assert (os_sems os' !! s2 = os_sems os !! s2) as E
          by (apply Hsems; congruence).
        exists PendSleep, os'. split; [done|]. split; [|by apply Htok].
        eapply wait_queue_agree; [done| |done].
        intros t Hin. apply Hothers; [by intros ->|].
        intros Hin1. by apply (Hdisj t).
    + eexists _, _. split; [by apply os_sem_pend_take|].
      assert (os_sems (with_sems (<[s := OsSem (sem_head sm)
                                          (to_uint16 (sem_tokens sm - 1))]>) os) !! s2 =
              os_sems os !! s2) as E.
      { simpl. by rewrite lookup_insert_ne. }
      split; [|by apply Htok]. by eapply wait_queue_agree.
  - intros [c Hc]. destruct l as [|r l'].
    + simpl in Hql. eexists. split; [by apply os_sem_release_bank|].
      assert (os_sems (with_sems (<[s := OsSem None
                                          (to_uint16 (sem_tokens sm + 1))]>) os) !! s2 =
              os_sems os !! s2) as E.
      { simpl. by rewrite lookup_insert_ne. }
      split; [|by apply Htok]. by eapply wait_queue_agree.
    + destruct Hql as (Hh & Hni & tk & Hr & Hql).
      eexists. split; [by eapply os_sem_release_wake|].
      match goal with |- wait_queue ?o _ _ ∧ _ => set (os' := o) end.
      assert (os_sems os' !! s2 = os_sems os !! s2) as E.
      { simpl. by rewrite lookup_insert_ne. }
      split; [|by apply Htok].
      eapply wait_queue_agree; [done| |done].
      intros t Hin. simpl. rewrite lookup_insert_ne; [done|].
      intros Heq. subst. eapply Hdisj; [apply elem_of_cons; by left|done].
  - intros fuel Hlen Hcur Hrl.
    eexists. split; [by apply os_sem_delete_run|].
    match goal with |- wait_queue ?o _ _ ∧ _ => set (os' := o) end.
    assert (os_sems os' !! s2 = os_sems os !! s2) as E.
    { simpl. by rewrite lookup_insert_ne. }
    split; [|by apply Htok].
    eapply wait_queue_agree; [done| |done].
    intros t Hin. simpl. rewrite lookup_unlink_all, decide_False; [done|].
    intros Hin1. by apply (Hdisj t).
Qed.

(** ** [os_sem_delete] on a damaged list *)

Lemma os_sem_delete_loop_empty fuel s os sm :
  os_sems os !! s = Some sm → sem_head sm = None →
  os_sem_delete_loop fuel s os = Some (tt, os).
Proof. intros Hs Hh. destruct fuel; simpl; munfold; mlookup; done. Qed.

Lemma os_sem_delete_loop_step fuel s os sm r tk :
  os_sems os !! s = Some sm → sem_head sm = Some r →
  os_tasks os !! r = Some tk →
  os_sem_delete_loop (S fuel) s os =
    os_sem_delete_loop fuel s
      (OsState (<[r := unlink tk]> (os_tasks os))
               (<[s := OsSem (t_sem_list tk) (sem_tokens sm)]> (os_sems os))
               (g_current_task os)
               (g_os_run_list os ++ [r])
               (os_sched_calls os ++ [CallWakeup r])).
Proof. intros Hs Hh Hr. simpl. munfold. mlookup. done. Qed.

Lemma linked_unlink os r tk n sems cur rl calls :
  os_tasks os !! r = Some tk → t_sem_list tk = Some n →
  linked (OsState (<[r := unlink tk]> (os_tasks os)) sems cur rl calls) =
  pred (linked os).
Proof.
  intros Hr Hn. unfold linked. simpl.
  rewrite map_filter_insert_False by (simpl; by intros []).
  rewrite map_filter_delete. apply map_size_delete_Some.
  exists tk. apply map_lookup_filter_Some_2; [done|]. simpl. by rewrite Hn.
Qed.

Lemma linked_pos os r tk n :
  os_tasks os !! r = Some tk → t_sem_list tk = Some n → (0 < linked os)%nat.
Proof.
  intros Hr Hn. unfold linked.
  assert (filter (λ kv : nat * os_task, t_sem_list kv.2 ≠ None) (os_tasks os)
            !! r = Some tk) as Hf.
  { apply map_lookup_filter_Some_2; [done|]. simpl. by rewrite Hn. }
  destruct (size _) eqn:E; [|lia].
  apply map_size_empty_inv in E. rewrite E in Hf. by rewrite lookup_empty in Hf.
Qed.

(** The loop of [os_sem_delete] nulls a link at every turn but the last:
    it ends on every store without dangling pointers. *)
Lemma os_sem_delete_loop_closed fuel s os :
  store_closed os s → (linked os < fuel)%nat →
  Forall (λ t, is_Some (os_tasks os !! t)) (g_os_run_list os) →
  ∃ os',
    os_sem_delete_loop fuel s os = Some (tt, os') ∧
    Forall (λ t, is_Some (os_tasks os' !! t)) (g_os_run_list os').
Proof.
  revert os. induction fuel as [|fuel IH]; intros os Hclosed Hfuel Hrl; [lia|].
  destruct Hclosed as [(sm & Hs & Hhead) Hlinks].
  destruct (sem_head sm) as [r|] eqn:Hh.
  - destruct (Hhead r eq_refl) as [tk Hr].
    rewrite (os_sem_delete_loop_step fuel s os sm r tk Hs Hh Hr).
    match goal with |- context [os_sem_delete_loop _ _ ?o] => set (os1 := o) end.
    assert (∀ t, is_Some (os_tasks os !! t) → is_Some (os_tasks os1 !! t)) as Hdom.
    { intros t Ht. simpl. rewrite lookup_insert. by case_decide. }
    assert (Forall (λ t, is_Some (os_tasks os1 !! t)) (g_os_run_list os1)) as Hrl1.
    { simpl. apply Forall_app. split.
      - eapply Forall_impl; [done|]. intros t Ht. by apply Hdom.
      - constructor; [|constructor]. apply Hdom. by eexists. }
    destruct (t_sem_list tk) as [n|] eqn:Hn.
    + assert (linked os1 = pred (linked os)) as Hl
        by (by apply (linked_unlink os r tk n)).
      pose proof (linked_pos os r tk n Hr Hn).
      apply IH; [|lia|done].
      split.
      * eexists. simpl. rewrite lookup_insert_eq. split; [done|]. simpl.
        intros h [= <-]. apply Hdom. by eapply Hlinks.
      * intros t tk' n' Ht Hn'. apply Hdom. simpl in Ht.
        rewrite lookup_insert in Ht. case_decide; simplify_eq.
        by eapply Hlinks.
    + exists os1. split; [|done].
      eapply os_sem_delete_loop_empty; [simpl; apply lookup_insert_eq|done].
  - exists os. split; [|done]. by eapply os_sem_delete_loop_empty.
Qed.

(** X8: [os_sem_delete] ends on a list of any shape.  Its loop nulls the
    link of every task it takes off, so on every store without dangling
    pointers, even one whose list runs into a cycle, the call returns
    [OS_OK] within one turn more than there are descriptors with a link;
    the semaphore is then empty with no token, and no priority and no flag
    has changed. *)
Theorem os_sem_delete_terminates (fuel : nat) (s : nat) (os : os_state) :
  store_closed os s → (linked os < fuel)%nat →
  is_Some (os_tasks os !! g_current_task os) →
  Forall (λ t, is_Some (os_tasks os !! t)) (g_os_run_list os) →
  ∃ os',
    os_sem_delete fuel (Some s) os = Some (OS_OK, os') ∧
    wait_queue os' s [] ∧
    token_count os' s = 0 ∧
    tasks_related (λ _ a b, t_prio b = t_prio a ∧ t_flags b = t_flags a) os os'.
Proof.
  intros [(sm & Hs & Hhead) Hlinks] Hfuel Hcur Hrl.
  set (os0 := with_sems (<[s := OsSem (sem_head sm) 0]>) os).
  destruct (os_sem_delete_loop_closed fuel s os0) as (os1 & Hloop & Hrl1);
    [|done|done|].
  { split; [|done]. eexists. simpl. rewrite lookup_insert_eq. by split. }
  pose proof Hloop as Hinv.
  apply os_sem_delete_loop_inv in Hinv as (Hc1 & _ & _ & Hrel).
  assert (is_Some (os_tasks os1 !! g_current_task os1)) as Hcur1.
  { rewrite Hc1. specialize (Hrel (g_current_task os)). simpl in *.
    destruct Hcur as [c Hc]. rewrite Hc in Hrel.
    destruct (os_tasks os1 !! g_current_task os); [by eexists|done]. }
  assert (∃ rc os', os_sem_delete fuel (Some s) os = Some (rc, os')) as (rc & os' & Hrun).
  { unfold os_sem_delete, os_sched_get_current_task. unfold bind at 1.
    unfold set_sem_tokens, load_sem, store_sem. unfold bind at 2.
    unfold bind at 1. rewrite Hs. fold os0. unfold bind at 1. rewrite Hloop.
    unfold os_sched_next_task, os_sched_get_current_task.
    unfold bind at 2. unfold bind at 1.
    rewrite os_sched_best_of_run by done.
    destruct (negb _); munfold; eauto. }
  pose proof Hrun as Hinv.
  apply os_sem_delete_inv in Hinv as (-> & _ & _ & Hs' & Hrel').
  exists os'. split_and!; try done.
  - by eapply wait_queue_nil.
  - by rewrite (token_count_lookup _ _ _ Hs').
Qed.

(** ** A second [os_sem_pend] by a task that is still on the list *)

Lemma scan_last_passes prio cp (l1 : list nat) c l2 last :
  Forall (λ e, prio e ≤ cp) l1 → prio c ≤ cp →
  match l2 with [] => True | e :: _ => cp < prio e end →
  scan_last prio cp (l1 ++ c :: l2) last = Some c.
Proof.
  intros Hl1 Hc Hl2. revert last.
  induction Hl1 as [|e l1 He _ IH]; intros last; simpl.
  - destruct (cp <? prio c) eqn:E; [apply Z.ltb_lt in E; lia|].
    destruct l2 as [|e l2]; [done|]. simpl.
    destruct (cp <? prio e) eqn:E'; [done|]. apply Z.ltb_ge in E'. lia.
  - destruct (cp <? prio e) eqn:E; [apply Z.ltb_lt in E; lia|]. apply IH.
Qed.

Lemma os_sem_pend_scan_self_link fuel os other otk cur ctk last :
  os_tasks os !! other = Some otk → os_tasks os !! cur = Some ctk →
  t_sem_list ctk = Some cur → t_prio ctk ≤ t_prio otk →
  os_sem_pend_scan fuel other (Some cur) last os = None.
Proof.
  intros Ho Hc Hlink Hp. revert last.
  induction fuel as [|fuel IH]; intros last; [done|].
  simpl. munfold. mlookup.
  destruct (t_prio otk <? t_prio ctk) eqn:E; [apply Z.ltb_lt in E; lia|].
  mlookup. rewrite Hlink. apply IH.
Qed.

Lemma os_sem_pend_scan_into_self_link ts0 l1 cur l2 os other otk ctk :
  (∀ e tk, e ∈ l1 → ts0 !! e = Some tk →
     ∃ tk', os_tasks os !! e = Some tk' ∧ t_prio tk' = t_prio tk ∧
            t_sem_list tk' = t_sem_list tk ∧ t_prio tk ≤ t_prio otk) →
  os_tasks os !! other = Some otk → os_tasks os !! cur = Some ctk →
  t_sem_list ctk = Some cur → t_prio ctk ≤ t_prio otk →
  ∀ entry fuel last,
    is_queue ts0 entry (l1 ++ cur :: l2) →
    os_sem_pend_scan fuel other entry last os = None.
Proof.
  intros Hl1 Ho Hc Hlink Hp.
  induction l1 as [|e l1 IH]; intros entry fuel last Hq.
  - destruct Hq as (-> & _). by eapply os_sem_pend_scan_self_link.
  - destruct Hq as (-> & _ & tk & He & Hq).
    destruct (Hl1 e tk) as (tk' & He' & Hp' & Hlink' & Hle);
      [apply elem_of_cons; by left|done|].
    destruct fuel as [|fuel]; [done|].
    simpl. munfold. mlookup.
    destruct (t_prio otk <? t_prio tk') eqn:E; [apply Z.ltb_lt in E; lia|].
    mlookup. rewrite Hlink'. apply IH; [|done].
    intros e0 tk0 Hin. apply Hl1. apply elem_of_cons. by right.
Qed.

(** X9: a task that is still on the list of a semaphore (the time-out path
    of [os_sem_pend] leaves it there) and pends again, with no token and a
    nonzero timeout, is inserted after itself when the walk stops at it: its
    link then points to itself and the waiters behind it are cut off.  From
    then on the walk of every blocking [os_sem_pend] by a task whose priority
    value is not below the priority values up to that task never reaches an
    end: the call does not return, whatever the number of turns allowed. *)
Theorem os_sem_pend_again_cycles (mask : Z) (fuel : nat) (os : os_state)
    (s : nat) (l1 : list nat) (cur : nat) (l2 : list nat) (timeout : Z) :
  wait_queue os s (l1 ++ cur :: l2) →
  token_count os s = 0 → timeout ≠ 0 →
  Forall (λ e, task_prio os e ≤ task_prio os cur) l1 →
  match l2 with [] => True | e :: _ => task_prio os cur < task_prio os e end →
  (length (l1 ++ cur :: l2) ≤ fuel)%nat →
  ∃ os',
    os_sem_pend_critical mask fuel s cur timeout os = Some (PendSleep, os') ∧
    task_link os' cur = Some cur ∧
    token_count os' s = 0 ∧
    (∀ t, t ≠ cur → os_tasks os' !! t = os_tasks os !! t) ∧
    ∀ fuel' other timeout',
      timeout' ≠ 0 → task_prio os cur ≤ task_prio os other →
      os_sem_pend_critical mask fuel' s other timeout' os' = None.
Proof.
  intros (sm & Hs & Hq) Htok Hto Hl1 Hl2 Hlen.
  destruct (is_queue_alloc _ _ _ cur Hq) as [ctk Hc].
  { apply elem_of_app. right. apply elem_of_cons. by left. }
  unfold token_count in Htok. rewrite Hs in Htok. simpl in Htok.
  set (ctk1 := OsTask (t_prio ctk) (Z.lor (t_flags ctk) mask) (t_sem_list ctk)).
  set (os1 := with_tasks (<[cur := ctk1]>) os).
  assert (is_queue (os_tasks os1) (sem_head sm) (l1 ++ cur :: l2)) as Hq1.
  { by apply (is_queue_store_same_link _ _ _ cur ctk ctk1). }
  assert (os_tasks os1 !! cur = Some ctk1) as Hc1.
  { apply lookup_insert_eq. }
  pose proof (os_sem_pend_scan_run fuel _ (sem_head sm) None os1 cur ctk1 Hq1 Hc1 Hlen)
    as Hscan.
  assert (∀ t, task_prio os1 t = task_prio os t) as Hprio1.
  { intros t. unfold task_prio, os1. simpl.
    destruct (decide (t = cur)) as [->|Hne].
    - by rewrite lookup_insert_eq, Hc.
    - by rewrite lookup_insert_ne. }
  assert (t_prio ctk1 = task_prio os cur) as Hcp.
  { unfold task_prio. by rewrite Hc. }
  rewrite Hcp, (scan_last_ext _ _ _ _ _ Hprio1) in Hscan.
  rewrite scan_last_passes in Hscan by (done || lia).
  destruct (sem_head sm) as [h|] eqn:Hh.
  2: { destruct l1; by destruct Hq. }
  set (ctk2 := OsTask (t_prio ctk) (Z.lor (t_flags ctk) mask) (Some cur)).
  set (os2 := with_tasks (<[cur := ctk2]>) os).
  assert (os_sem_pend_critical mask fuel s cur timeout os = Some (PendSleep, os2))
    as Hrun.
  { unfold os_sem_pend_critical.
    unfold bind at 1, get_sem_tokens, load_sem, bind, ret. rewrite Hs, Htok. simpl.
    destruct (timeout =? 0) eqn:E; [apply Z.eqb_eq in E; done|].
    unfold get_t_flags, set_t_flags, load_task, store_task, bind, ret.
    rewrite Hc. simpl. rewrite Hc. simpl. fold ctk1. fold os1.
    unfold SLIST_EMPTY, SLIST_FIRST, load_sem, bind, ret. simpl. rewrite Hs.
    simpl. rewrite Hh. simpl. rewrite Hs. simpl. rewrite Hh. rewrite Hscan.
    subst os1. munfold. mlookup. unfold os2, with_tasks.
    by rewrite !insert_insert_eq. }
  exists os2. split; [done|].
  assert (os_tasks os2 !! cur = Some ctk2) as Hc2 by apply lookup_insert_eq.
  split_and!.
  - unfold task_link. by rewrite Hc2.
  - unfold token_count. simpl. by rewrite Hs.
  - intros t Hne. simpl. by rewrite lookup_insert_ne.
  - intros fuel' other timeout' Hto' Hp.
    unfold os_sem_pend_critical.
    unfold bind at 1, get_sem_tokens, load_sem, bind, ret. simpl. rewrite Hs, Htok.
    simpl. destruct (timeout' =? 0) eqn:E; [apply Z.eqb_eq in E; done|].
    unfold get_t_flags, set_t_flags, load_task, store_task, bind, ret.
    destruct (os_tasks os2 !! other) as [otk|] eqn:Ho; [|done].
    simpl in Ho |- *. rewrite Ho. simpl.
    unfold SLIST_EMPTY, SLIST_FIRST, load_sem, bind, ret. simpl. rewrite Hs.
    simpl. rewrite Hh. simpl. rewrite Hs. simpl. rewrite Hh.
    set (otk1 := OsTask (t_prio otk) (Z.lor (t_flags otk) mask) (t_sem_list otk)).
    match goal with
    | |- context [os_sem_pend_scan _ _ _ _ ?o] => set (os3 := o)
    end.
    assert (task_prio os other = t_prio otk) as Hpo.
    { unfold task_prio. simpl in Ho.
      destruct (decide (other = cur)) as [->|Hne].
      - rewrite lookup_insert_eq in Ho. rewrite Hc. by simplify_eq.
      - rewrite lookup_insert_ne in Ho by done. by rewrite Ho. }
    assert (os_tasks os3 !! other = Some otk1) as Ho3 by apply lookup_insert_eq.
    assert (∃ ctk3, os_tasks os3 !! cur = Some ctk3 ∧
                    t_sem_list ctk3 = Some cur ∧ t_prio ctk3 = t_prio ctk)
      as (ctk3 & Hc3 & Hlink3 & Hp3).
    { destruct (decide (other = cur)) as [->|Hne].
      - exists otk1. split; [done|]. rewrite lookup_insert_eq in Ho.
        by simplify_eq.
      - exists ctk2. subst os3. simpl. by rewrite lookup_insert_ne. }
    rewrite (os_sem_pend_scan_into_self_link (os_tasks os) l1 cur l2 os3 other otk1 ctk3);
      try done.
    + intros e tk Hin He.
      assert (e ≠ cur) as Hne.
      { intros ->. apply is_queue_NoDup in Hq. apply NoDup_app in Hq as (_ & Hd & _).
        apply (Hd cur Hin). apply elem_of_cons. by left. }
      assert (t_prio tk ≤ t_prio otk) as Hle.
      { rewrite Forall_forall in Hl1. specialize (Hl1 e Hin).
        unfold task_prio in Hl1 at 1. rewrite He in Hl1. simpl in Hl1. lia. }
      destruct (decide (e = other)) as [->|Hne'].
      * exists otk1. split; [done|]. simpl in Ho.
        rewrite lookup_insert_ne in Ho by done. by simplify_eq.
      * exists tk. subst os3. simpl. by rewrite !lookup_insert_ne.
    + simpl. rewrite Hp3. unfold task_prio in Hp at 1. rewrite Hc in Hp. simpl in Hp.
      lia.
Qed.

(** ** The properties above on the example kernels *)

Lemma demo_two_queue : wait_queue demo_two 0 [2; 3; 1]%nat.
Proof. solve_wait_queue. Qed.

Lemma demo_two_queue2 : wait_queue demo_two 1 [4]%nat.
Proof. solve_wait_queue. Qed.

Lemma demo_waiting_wf : sem_wf 2 demo_waiting 0 [2; 3; 1]%nat.
Proof.
  split_and!.
  - solve_wait_queue.
  - simpl. split_and!; repeat constructor; by vm_compute.
  - repeat constructor; by vm_compute.
  - by vm_compute.
  - intros H. by vm_compute in H.
Qed.

Lemma demo_cyclic_closed : store_closed demo_cyclic 0.
Proof.
  split.
  - exists (OsSem (Some 2%nat) 0). split; [reflexivity|].
    intros h [= <-]. by eexists.
  - assert (map_Forall (λ _ tk, ∀ n, t_sem_list tk = Some n →
                                    is_Some (os_tasks demo_cyclic !! n))
                       (os_tasks demo_cyclic)) as H.
    { simpl. repeat apply map_Forall_insert_2; try apply map_Forall_empty;
        simpl; intros n Hn; simplify_eq; by eexists. }
    intros t tk n Ht Hn. exact (H t tk Ht n Hn).
Qed.

(** X1 at [demo_os]: a [NULL] semaphore is refused; task 9, pending on the
    empty semaphore while nobody releases, gets one of the two other
    codes. *)
Lemma os_sem_result_codes_witness :
  os_sem_pend 2 os_sched_sleep_expire 3 None 100 demo_os =
    Some (OS_INVALID_PARM, demo_os) ∧
  ∃ rc os',
    os_sem_pend 2 os_sched_sleep_expire 3 (Some 0%nat) 100 demo_os =
      Some (rc, os') ∧
    (rc = OS_OK ∨ rc = OS_TIMEOUT).
Proof.
  destruct (os_sem_result_codes 2 os_sched_sleep_expire 3)
    as (Hnull & _ & Hpend & _).
  split; [apply (Hnull demo_os 100)|].
  destruct (os_sem_pend 2 os_sched_sleep_expire 3 (Some 0%nat) 100 demo_os)
    as [[rc os']|] eqn:E; [|by vm_compute in E].
  exists rc, os'. split; [done|]. by eapply Hpend.
Defined.

(** X2 at [demo_os]: task 9 waits in vain and returns with its flag
    clear. *)
Lemma os_sem_pend_flag_on_return_witness :
  token_count demo_os 0 = 0 ∧
  ∃ rc os',
    os_sem_pend 2 os_sched_sleep_expire 3 (Some 0%nat) 100 demo_os =
      Some (rc, os') ∧
    Z.land (task_flags os' 9) 2 = 0.
Proof.
  split; [reflexivity|].
  destruct (os_sem_pend 2 os_sched_sleep_expire 3 (Some 0%nat) 100 demo_os)
    as [[rc os']|] eqn:E; [|by vm_compute in E].
  exists rc, os'. split; [done|].
  destruct (os_sem_pend_flag_on_return 2 os_sched_sleep_expire 3 0 100 demo_os
              rc os' E) as [H _]; [reflexivity|lia|exact H].
Defined.

(** X3 at [demo_token]: with one token banked, release then pend, and pend
    then release, both end where they began. *)
Lemma os_sem_release_pend_round_trip_witness :
  os_sems demo_token !! 0%nat = Some (OsSem None 1) ∧
  (do _ <- os_sem_release 2 (Some 0%nat) ;
   os_sem_pend 2 os_sched_sleep_expire 0 (Some 0%nat) 5)%os demo_token =
    Some (OS_OK, demo_token) ∧
  (do _ <- os_sem_pend 2 os_sched_sleep_expire 0 (Some 0%nat) 5 ;
   os_sem_release 2 (Some 0%nat))%os demo_token = Some (OS_OK, demo_token).
Proof.
  split; [reflexivity|].
  destruct (os_sem_release_pend_round_trip 2 os_sched_sleep_expire 0 demo_token
              0 1 5) as [H1 H2]; [reflexivity|lia|].
  split; [apply H1; lia|apply H2; lia].
Defined.

(** X4 at [demo_waiting]: after the delete, creating the semaphore anew
    with no token changes nothing. *)
Lemma os_sem_delete_leaves_fresh_witness :
  wait_queue demo_waiting 0 [2; 3; 1]%nat ∧
  ∃ os',
    os_sem_delete 3 (Some 0%nat) demo_waiting = Some (OS_OK, os') ∧
    os_sem_create (Some 0%nat) 0 os' = Some (OS_OK, os').
Proof.
  split; [solve_wait_queue|].
  destruct (os_sem_delete_leaves_fresh 2 os_sched_sleep_expire 3 demo_waiting
              0 [2; 3; 1]%nat 5) as (os' & Hdel & Hcreate & _).
  - solve_wait_queue.
  - simpl. lia.
  - by eexists.
  - constructor.
  - by exists os'.
Defined.

(** X5 at [demo_os]: task 9 pends, task 2 releases while it sleeps; task 9
    returns [OS_OK] and, its priority value 7 not being below 1, no
    reschedule was asked for. *)
Lemma os_sem_pend_handoff_witness :
  wait_queue demo_os 0 [] ∧
  ∃ os',
    os_sem_pend 2 (os_sched_sleep_while 2 (os_sem_release 2 (Some 0%nat)))
      0 (Some 0%nat) 100 demo_os = Some (OS_OK, os') ∧
    wait_queue os' 0 [] ∧
    os_sched_calls os' = [CallWakeup 9].
Proof.
  split; [solve_wait_queue|].
  destruct (os_sem_pend_handoff 2 0 demo_os 0 [] 2 100)
    as (os' & Hrun & Hq & _ & _ & _ & _ & Hcalls).
  - solve_wait_queue.
  - reflexivity.
  - lia.
  - by eexists.
  - apply not_elem_of_nil.
  - simpl. lia.
  - by eexists.
  - exact I.
  - exists os'. split_and!; done.
Defined.

(** X6 at [demo_waiting]: a release keeps the list in order, with the
    first waiter gone. *)
Lemma sem_wf_kept_witness :
  sem_wf 2 demo_waiting 0 [2; 3; 1]%nat ∧
  ∃ os',
    os_sem_release 2 (Some 0%nat) demo_waiting = Some (OS_OK, os') ∧
    sem_wf 2 os' 0 [3; 1]%nat.
Proof.
  split; [apply demo_waiting_wf|].
  destruct (sem_wf_kept 2 0) as (_ & _ & Hrel & _).
  apply (Hrel demo_waiting [2; 3; 1]%nat); [apply demo_waiting_wf|by eexists].
Defined.

(** The condition on the caller of [os_sem_pend] cannot be dropped: in
    [demo_two] task 4 is on the list of the semaphore at 1; when it pends on
    the semaphore at 0 its link is overwritten, and the list of the
    semaphore at 1 is no longer 4 alone. *)
Lemma os_sem_pend_on_other_list_disturbs :
  ∃ os',
    os_sem_pend_critical 2 3 0 4 100 demo_two = Some (PendSleep, os') ∧
    wait_queue os' 1 [4; 1]%nat.
Proof. eexists. split; [vm_compute; reflexivity|]. solve_wait_queue. Qed.

(** X7 at [demo_two]: a release on the semaphore at 0, and a second pend on
    it by task 2, which is still on its list, leave task 4 waiting on the
    semaphore at 1. *)
Lemma os_sem_other_semaphore_kept_witness :
  wait_queue demo_two 0 [2; 3; 1]%nat ∧ wait_queue demo_two 1 [4]%nat ∧
  (∃ os',
     os_sem_release 2 (Some 0%nat) demo_two = Some (OS_OK, os') ∧
     wait_queue os' 1 [4]%nat ∧
     token_count os' 1 = token_count demo_two 1) ∧
  ∃ out os',
    os_sem_pend_critical 2 3 0 2 100 demo_two = Some (out, os') ∧
    wait_queue os' 1 [4]%nat ∧
    token_count os' 1 = token_count demo_two 1.
Proof.
  split; [apply demo_two_queue|]. split; [apply demo_two_queue2|].
  destruct (os_sem_other_semaphore_kept 2 0 1 demo_two [2; 3; 1]%nat [4]%nat)
    as (Hpend & Hrel & _).
  - done.
  - apply demo_two_queue.
  - apply demo_two_queue2.
  - intros t Ht H4. apply list_elem_of_singleton in H4. subst.
    repeat (apply elem_of_cons in Ht as [Ht|Ht]; [done|]).
    by apply elem_of_nil in Ht.
  - split; [apply Hrel; by eexists|].
    apply Hpend; [by eexists| |simpl; lia].
    intros H4. by apply list_elem_of_singleton in H4.
Defined.

(** X8 at [demo_cyclic]: two descriptors carry a link, one of them to
    itself; three turns are enough for [os_sem_delete] to return. *)
Lemma os_sem_delete_terminates_witness :
  store_closed demo_cyclic 0 ∧
  task_link demo_cyclic 2 = Some 2%nat ∧
  ∃ os',
    os_sem_delete 3 (Some 0%nat) demo_cyclic = Some (OS_OK, os') ∧
    wait_queue os' 0 [].
Proof.
  split; [apply demo_cyclic_closed|]. split; [reflexivity|].
  destruct (os_sem_delete_terminates 3 0 demo_cyclic)
    as (os' & Hrun & Hq & _).
  - apply demo_cyclic_closed.
  - vm_compute. lia.
  - by eexists.
  - constructor.
  - by exists os'.
Defined.

(** X9 at [demo_waiting]: task 2, at the head of the list, pends again and
    ends up linked to itself; a pend by task 3 then finds no end of the
    list, here within a thousand turns. *)
Lemma os_sem_pend_again_cycles_witness :
  wait_queue demo_waiting 0 [2; 3; 1]%nat ∧
  ∃ os',
    os_sem_pend_critical 2 3 0 2 100 demo_waiting = Some (PendSleep, os') ∧
    task_link os' 2 = Some 2%nat ∧
    os_sem_pend_critical 2 1000 0 3 100 os' = None.
Proof.
  split; [solve_wait_queue|].
  destruct (os_sem_pend_again_cycles 2 3 demo_waiting 0 [] 2 [3; 1]%nat 100)
    as (os' & Hrun & Hlink & _ & _ & Hloop).
  - solve_wait_queue.
  - reflexivity.
  - lia.
  - constructor.
  - by vm_compute.
  - simpl. lia.
  - exists os'. split_and!; [done..|]. apply Hloop; [lia|by vm_compute].
Defined.
